(** * A shallow embedding of [http_server.c]

    The static-file HTTP server is embedded function by function:
    [get_content_type], [send_response], [send_file] and [handle_request]
    keep their names.  NUL-terminated [char*] strings are [string]s, raw
    buffers are [list byte], [size_t] and [off_t] are [N] and [Z] with the
    conversion between them written out, and the effects are explicit:
    - the operating system (file system and allocator) is a record of
      oracles, [World], consulted by [stat], [fopen], [malloc] and [fread];
    - the connection is the list of buffers handed to [write(2)], in
      order (the code never looks at what [write] returns);
    - behaviour the C standard leaves undefined (writing past a fixed
      array, reading an array nobody initialised, reading past a buffer)
      is an explicit [fault]. *)

From Stdlib Require Import Bool Arith NArith ZArith Lia List.
From Stdlib Require Import Strings.Ascii Strings.String Strings.Byte.
Import ListNotations.

Local Open Scope string_scope.

(** ** The pieces of the C library the server calls *)

Module CLib.

(** [strcmp(a, b) == 0]: the code only ever tests the result against 0. *)
Definition strcmp_eq0 (a b : string) : bool := String.eqb a b.

(** [strlen] as a [size_t]. *)
Definition strlen (s : string) : N := N.of_nat (String.length s).

(** [strrchr(s, c)] for a character [c] other than NUL: the suffix of [s]
    that starts at the last occurrence of [c], or NULL ([None]). *)
Fixpoint strrchr (s : string) (c : ascii) : option string :=
  match s with
  | EmptyString => None
  | String a s' =>
      match strrchr s' c with
      | Some r => Some r
      | None => if Ascii.eqb a c then Some s else None
      end
  end.

(** [isspace] in the C locale: space, and the controls TAB, LF, VT, FF
    and CR. *)
Definition isspace (c : ascii) : bool :=
  let n := N_of_ascii c in
  (n =? 32)%N || ((9 <=? n)%N && (n <=? 13)%N).

(** The digit character of a value below ten. *)
Definition digit_char (d : N) : ascii := ascii_of_N (48 + d).

(** The digit loop of the [printf] family: the decimal digits of [n] are
    produced from the least significant one and pushed in front of
    [acc].  [fuel] bounds the number of digits. *)
Fixpoint utoa_fuel (fuel : nat) (n : N) (acc : string) : string :=
  match fuel with
  | O => acc
  | S fuel' =>
      let acc' := String (digit_char (n mod 10)) acc in
      if (n <? 10)%N then acc' else utoa_fuel fuel' (n / 10) acc'
  end.

(** [%zu]: a number has no more decimal digits than binary ones. *)
Definition utoa (n : N) : string :=
  utoa_fuel (S (N.to_nat (N.log2 n))) n "".

(** [%d]. *)
Definition itoa (z : Z) : string :=
  if (z <? 0)%Z then "-" ++ utoa (Z.to_N (- z)) else utoa (Z.to_N z).

(** [size_t] on the LP64 targets the server is built for. *)
Definition SIZE_MAX : N := 2 ^ 64 - 1.

(** The implicit conversion of an [off_t] to a [size_t]. *)
Definition size_t_of_off_t (z : Z) : N := Z.to_N (z mod 2 ^ 64).

End CLib.
Export CLib.

(** ** Undefined behaviour, made explicit *)

Inductive fault : Type :=
| BufferOverflow      (* a write past the end of a fixed-size array *)
| UninitialisedRead   (* a read of an array that was never written *)
| BufferOverread.     (* a read past the end of a buffer *)

(** The result of a piece of code that may run into undefined behaviour. *)
Definition exec (A : Type) : Type := (fault + A)%type.

Definition ret {A} (a : A) : exec A := inr a.
Definition fail {A} (f : fault) : exec A := inl f.
Definition bind {A B} (m : exec A) (k : A -> exec B) : exec B :=
  match m with
  | inl f => inl f
  | inr a => k a
  end.

Notation "x <- m ;; k" := (bind m (fun x => k))
  (at level 61, m at next level, right associativity).
Notation "' pat <- m ;; k" := (bind m (fun x => match x with pat => k end))
  (at level 61, pat pattern, m at next level, right associativity).

(** ** Configuration constants *)

Definition PORT : N := 8080.
Definition BUFFER_SIZE : N := 8192.
Definition MAX_CONNECTIONS : N := 10.

(** ** [get_content_type] *)

Definition get_content_type (filepath : string) : string :=
  match strrchr filepath "." with
  | None => "text/plain"
  | Some dot =>
      if strcmp_eq0 dot ".html" then "text/html"
      else if strcmp_eq0 dot ".css" then "text/css"
      else if strcmp_eq0 dot ".js" then "application/javascript"
      else if strcmp_eq0 dot ".json" then "application/json"
      else if strcmp_eq0 dot ".png" then "image/png"
      else if strcmp_eq0 dot ".jpg" || strcmp_eq0 dot ".jpeg" then "image/jpeg"
      else if strcmp_eq0 dot ".gif" then "image/gif"
      else if strcmp_eq0 dot ".svg" then "image/svg+xml"
      else "text/plain"
  end.

(** ** [send_response] *)

(** The connection: the buffers passed to [write], oldest first. *)
Definition writes : Type := list (list byte).

(** The two-byte line terminator the format string spells as a carriage
    return followed by a line feed. *)
Definition CRLF : string := String "013"%char (String "010"%char "").

(** What [snprintf] is asked to format. *)
Definition format_header (status_code : Z) (status_text content_type : string)
    (body_length : N) : string :=
  "HTTP/1.1 " ++ itoa status_code ++ " " ++ status_text ++ CRLF ++
  "Content-Type: " ++ content_type ++ CRLF ++
  "Content-Length: " ++ utoa body_length ++ CRLF ++
  "Connection: close" ++ CRLF ++
  CRLF.

(** A string literal as the array the compiler lays out: its characters
    and the terminating NUL. *)
Definition literal (s : string) : list byte :=
  (list_byte_of_string s ++ [x00])%list.

(** [snprintf(buf, size, ...)] with [text] the fully formatted output: the
    array receives at most [size - 1] characters and a NUL; the value
    returned is the length of the whole of [text], truncated or not. *)
Definition snprintf (size : N) (text : string) : list byte * N :=
  ((firstn (N.to_nat (size - 1)) (list_byte_of_string text) ++ [x00])%list,
   strlen text).

(** The bytes [write(fd, buf, count)] takes from [buf]; reading past the
    end of [buf] is undefined. *)
Definition write_from (buf : list byte) (count : N) : exec (list byte) :=
  if (count <=? N.of_nat (List.length buf))%N
  then ret (firstn (N.to_nat count) buf)
  else fail BufferOverread.

(** [body] is [None] for a NULL pointer and otherwise the buffer pointed
    to. *)
Definition send_response (status_code : Z) (status_text content_type : string)
    (body : option (list byte)) (body_length : N) : exec writes :=
  let '(header, header_length) :=
    snprintf BUFFER_SIZE
      (format_header status_code status_text content_type body_length) in
  sent_header <- write_from header header_length ;;
  match body with
  | Some buf =>
      if (0 <? body_length)%N
      then sent_body <- write_from buf body_length ;;
           ret [sent_header; sent_body]
      else ret [sent_header]
  | None => ret [sent_header]
  end.

(** ** The operating system *)

Record World : Type := {
  (** [stat(path, &st)]: [st.st_size] when it returns 0, [None] when it
      returns -1. *)
  stat : string -> option Z;
  (** [fopen(path, "rb")]: the bytes the stream delivers, [None] for
      NULL. *)
  fopen : string -> option (list byte);
  (** Whether [malloc(size)] returns a block. *)
  malloc_ok : N -> bool;
  (** The indeterminate byte found at an offset of a fresh block. *)
  heap_byte : nat -> byte
}.

Definition malloc (w : World) (size : N) : option (list byte) :=
  if malloc_ok w size
  then Some (map (heap_byte w) (seq 0 (N.to_nat size)))
  else None.

(** [fread(ptr, 1, n, stream)]: the bytes the stream delivers, at most
    [n], replace the start of the block; the count returned is dropped by
    the caller. *)
Definition fread (block : list byte) (n : N) (stream : list byte) : list byte :=
  let got := firstn (N.to_nat n) stream in
  (got ++ skipn (List.length got) block)%list.

(** ** [send_file] *)

Definition not_found : string :=
  "<html><body><h1>404 Not Found</h1></body></html>".
Definition error : string :=
  "<html><body><h1>500 Internal Server Error</h1></body></html>".
Definition not_implemented : string :=
  "<html><body><h1>501 Not Implemented</h1></body></html>".

Definition send_file (w : World) (filepath : string) : exec writes :=
  match stat w filepath with
  | None =>
      send_response 404 "Not Found" "text/html"
        (Some (literal not_found)) (strlen not_found)
  | Some st_size =>
      match fopen w filepath with
      | None =>
          send_response 500 "Internal Server Error" "text/html"
            (Some (literal error)) (strlen error)
      | Some file =>
          match malloc w (size_t_of_off_t st_size) with
          | None =>
              send_response 500 "Internal Server Error" "text/html"
                (Some (literal error)) (strlen error)
          | Some block =>
              let file_content :=
                fread block (size_t_of_off_t st_size) file in
              let content_type := get_content_type filepath in
              send_response 200 "OK" content_type
                (Some file_content) (size_t_of_off_t st_size)
          end
      end
  end.

(** ** [handle_request] *)

(** One [%s] directive of [sscanf]: white space is skipped, then the
    longest run of characters that are not white space is taken. *)
Fixpoint skip_space (s : string) : string :=
  match s with
  | EmptyString => EmptyString
  | String c s' => if isspace c then skip_space s' else s
  end.

Fixpoint scan_word (s : string) : string * string :=
  match s with
  | EmptyString => (EmptyString, EmptyString)
  | String c s' =>
      if isspace c then (EmptyString, s)
      else let (word, rest) := scan_word s' in (String c word, rest)
  end.

(** [None] when the input ends before the directive stores a character:
    the directive fails and [sscanf] returns. *)
Definition scan_s (s : string) : option (string * string) :=
  match scan_word (skip_space s) with
  | (EmptyString, _) => None
  | (word, rest) => Some (word, rest)
  end.

(** Storing a word and its NUL in a [char[size]]. *)
Definition store (size : N) (word : string) : exec string :=
  if (strlen word <? size)%N then ret word else fail BufferOverflow.

(** A local array: [None] until something is stored in it. *)
Definition array : Type := option string.

(** Reading a local array as a string. *)
Definition load (a : array) : exec string :=
  match a with
  | Some s => ret s
  | None => fail UninitialisedRead
  end.

(** [sscanf(request, "%s %s %s", method, path, protocol)] into arrays of
    the sizes given; the white space in the format matches any amount of
    white space, which the next [%s] would skip anyway. *)
Definition sscanf_s_s_s (request : string) (size1 size2 size3 : N)
    : exec (array * array * array) :=
  match scan_s request with
  | None => ret (None, None, None)
  | Some (w1, r1) =>
      a1 <- store size1 w1 ;;
      match scan_s r1 with
      | None => ret (Some a1, None, None)
      | Some (w2, r2) =>
          a2 <- store size2 w2 ;;
          match scan_s r2 with
          | None => ret (Some a1, Some a2, None)
          | Some (w3, _) =>
              a3 <- store size3 w3 ;;
              ret (Some a1, Some a2, Some a3)
          end
      end
  end.

Record Request : Type := {
  method : string;
  target : string;
  version : string
}.

(** Lines 163-171: the three arrays, the [sscanf], and the [printf] that
    reads all three (its line on the standard output is not part of the
    connection and is left out). *)
Definition parse_request (request : string) : exec Request :=
  '(method, path, protocol) <- sscanf_s_s_s request 16 256 16 ;;
  m <- load method ;;
  p <- load path ;;
  v <- load protocol ;;
  ret {| method := m; target := p; version := v |}.

(** [strcat(dst, src)] with [dst] a [char[size]]. *)
Definition strcat (size : N) (dst src : string) : exec string :=
  store size (dst ++ src).

(** Lines 181-190: [filepath] starts as ["."]. *)
Definition build_filepath (path : string) : exec string :=
  let filepath := "." in
  if strcmp_eq0 path "/"
  then strcat 512 filepath "/index.html"
  else strcat 512 filepath path.

Definition handle_request (w : World) (request : string) : exec writes :=
  req <- parse_request request ;;
  if negb (strcmp_eq0 (method req) "GET")
  then send_response 501 "Not Implemented" "text/html"
         (Some (literal not_implemented)) (strlen not_implemented)
  else
    filepath <- build_filepath (target req) ;;
    send_file w filepath.

(** ** The response as the specification sees it *)

(** The conceptual [HttpResponse] of the data model. *)
Record HttpResponse : Type := {
  statusCode : Z;
  reasonPhrase : string;
  contentType : string;
  body : list byte
}.

(** The header block of section 4.2, as bytes. *)
Definition header_block (r : HttpResponse) : list byte :=
  list_byte_of_string
    (format_header (statusCode r) (reasonPhrase r) (contentType r)
       (N.of_nat (List.length (body r)))).

(** A framed response on the connection: the header block, then the body
    when it is not empty. *)
Definition frame (r : HttpResponse) : writes :=
  match body r with
  | [] => [header_block r]
  | _ :: _ => [header_block r; body r]
  end.

(** The three canned error responses. *)
Definition error_page (code : Z) (reason page : string) : HttpResponse :=
  {| statusCode := code; reasonPhrase := reason;
     contentType := "text/html"; body := list_byte_of_string page |}.

Definition response_404 : HttpResponse := error_page 404 "Not Found" not_found.
Definition response_500 : HttpResponse :=
  error_page 500 "Internal Server Error" error.
Definition response_501 : HttpResponse :=
  error_page 501 "Not Implemented" not_implemented.

Definition response_200 (content_type : string) (content : list byte)
    : HttpResponse :=
  {| statusCode := 200; reasonPhrase := "OK";
     contentType := content_type; body := content |}.

(** The MIME table of section 4.1, in the order it is written there. *)
Definition mime_table : list (string * string) :=
  [ (".html", "text/html"); (".css", "text/css");
    (".js", "application/javascript"); (".json", "application/json");
    (".png", "image/png"); (".jpg", "image/jpeg"); (".jpeg", "image/jpeg");
    (".gif", "image/gif"); (".svg", "image/svg+xml") ].

(** Case-sensitive lookup of an extension. *)
Fixpoint lookup_extension (ext : string) (table : list (string * string))
    : option string :=
  match table with
  | [] => None
  | (e, t) :: table' =>
      if String.eqb ext e then Some t else lookup_extension ext table'
  end.

(** Whether a character occurs in a string. *)
Fixpoint occurs (c : ascii) (s : string) : bool :=
  match s with
  | EmptyString => false
  | String a s' => Ascii.eqb a c || occurs c s'
  end.

(** The white-space-delimited tokens of a buffer, first to last. *)
Definition at_word_start (s : string) : bool :=
  match s with
  | EmptyString => false
  | String c _ => negb (isspace c)
  end.

Fixpoint tokens (s : string) : list string :=
  match s with
  | EmptyString => []
  | String c s' =>
      if isspace c then tokens s'
      else if at_word_start s' then
        match tokens s' with
        | t :: ts => String c t :: ts
        | [] => [String c EmptyString]
        end
      else String c EmptyString :: tokens s'
  end.

(** The resolved path of section 4.5: the root ["."], then the default
    document for the target ["/"] and the target itself otherwise. *)
Definition resolved_path (target : string) : string :=
  if String.eqb target "/" then "./index.html" else "." ++ target.

(** Reading a header block back: the text that follows the first
    occurrence of a key, and the decimal number a text starts with. *)
Fixpoint strip_prefix (key s : string) : option string :=
  match key with
  | EmptyString => Some s
  | String k key' =>
      match s with
      | EmptyString => None
      | String c s' => if Ascii.eqb k c then strip_prefix key' s' else None
      end
  end.

Fixpoint after_first (key s : string) : option string :=
  match strip_prefix key s with
  | Some rest => Some rest
  | None =>
      match s with
      | EmptyString => None
      | String _ s' => after_first key s'
      end
  end.

Definition is_digit (c : ascii) : bool :=
  let n := N_of_ascii c in (48 <=? n)%N && (n <=? 57)%N.

Fixpoint read_digits (acc : N) (s : string) : N :=
  match s with
  | EmptyString => acc
  | String c s' =>
      if is_digit c then read_digits (acc * 10 + (N_of_ascii c - 48)) s'
      else acc
  end.

Definition read_number (s : string) : option N :=
  match s with
  | EmptyString => None
  | String c _ => if is_digit c then Some (read_digits 0 s) else None
  end.

(** The value of the [Content-Length] field of a header block. *)
Definition content_length_field (header : list byte) : option N :=
  match after_first "Content-Length: " (string_of_list_byte header) with
  | Some rest => read_number rest
  | None => None
  end.

(** The bytes put on the connection after its first [write]. *)
Definition body_bytes_written (out : writes) : list byte :=
  List.concat (tl out).

(** The nine strings [get_content_type] can return. *)
Definition content_types : list string :=
  [ "text/plain"; "text/html"; "text/css"; "application/javascript";
    "application/json"; "image/png"; "image/jpeg"; "image/gif";
    "image/svg+xml" ].

(** The text of a header line, up to its carriage return. *)
Fixpoint take_line (s : string) : string :=
  match s with
  | EmptyString => EmptyString
  | String c s' =>
      if Ascii.eqb c "013" then EmptyString else String c (take_line s')
  end.

(** The value of the [Content-Type] field of a header block. *)
Definition content_type_field (header : list byte) : option string :=
  option_map take_line
    (after_first "Content-Type: " (string_of_list_byte header)).

(** The status code of a header block that starts with [HTTP/1.1]. *)
Definition status_code_field (header : list byte) : option N :=
  match strip_prefix "HTTP/1.1 " (string_of_list_byte header) with
  | Some rest => read_number rest
  | None => None
  end.

(** ** The File Loader and the Router of the specification *)

(** The outcome of section 4.3. *)
Inductive FileOutcome : Type :=
| Found (bytes : list byte)
| NotFound
| ReadError.

Definition load_file (w : World) (path : string) : FileOutcome :=
  match stat w path with
  | None => NotFound
  | Some st_size =>
      match fopen w path, malloc w (size_t_of_off_t st_size) with
      | Some file, Some block =>
          Found (fread block (size_t_of_off_t st_size) file)
      | _, _ => ReadError
      end
  end.

Definition respond_file (w : World) (path : string) : HttpResponse :=
  match load_file w path with
  | Found bytes => response_200 (get_content_type path) bytes
  | NotFound => response_404
  | ReadError => response_500
  end.

(** The two decision points of section 4.5. *)
Definition route (w : World) (req : Request) : HttpResponse :=
  if String.eqb (method req) "GET"
  then respond_file w (resolved_path (target req))
  else response_501.

(** The responses the server has code for. *)
Definition served (r : HttpResponse) : Prop :=
  r = response_501 \/ r = response_404 \/ r = response_500 \/
  exists filepath content,
    r = response_200 (get_content_type filepath) content.

(** ** Sample worlds and inputs *)

(** A world with one entry: what [stat] reports for it, what opening it
    gives, and whether memory can be had.  Fresh memory holds [xaa]. *)
Definition one_entry (path : string) (st_size : Z)
    (stream : option (list byte)) (memory : bool) : World :=
  {| stat := fun p => if String.eqb p path then Some st_size else None;
     fopen := fun p => if String.eqb p path then stream else None;
     malloc_ok := fun _ => memory;
     heap_byte := fun _ => xaa |}.

(** A regular, readable file with the given content. *)
Definition regular_file (path : string) (content : list byte) : World :=
  one_entry path (Z.of_nat (List.length content)) (Some content) true.

(** A string of [n] copies of a character. *)
Fixpoint replicate (n : nat) (c : ascii) : string :=
  match n with
  | O => EmptyString
  | S n' => String c (replicate n' c)
  end.

(** An entry whose stream delivers fewer bytes than [stat] reported, here
    two of five: a file cut short between the two calls or, on Linux, a
    directory, which opens for reading and delivers nothing. *)
Definition shrunk_file : World :=
  one_entry "./notes.txt" 5 (Some [x68; x69]) true.

(** A stored, readable three-byte file on a machine with no memory left. *)
Definition out_of_memory : World :=
  one_entry "./data.bin" 3 (Some [x00; xff; x10]) false.

(** An empty document root. *)
Definition no_files : World :=
  {| stat := fun _ => None; fopen := fun _ => None;
     malloc_ok := fun _ => true; heap_byte := fun _ => x00 |}.

(** The largest [off_t]. *)
Definition OFF_MAX : Z := 2 ^ 63 - 1.

(** A byte sequence stored as a readable regular file: [stat] reports its
    length and the stream opened on it delivers it. *)
Definition stored (w : World) (path : string) (content : list byte) : Prop :=
  (Z.of_nat (List.length content) <= OFF_MAX)%Z /\
  stat w path = Some (Z.of_nat (List.length content)) /\
  fopen w path = Some content.

(** ** [main] *)

Definition EXIT_FAILURE : Z := 1.

(** Whether each of the four calls that set the server socket up
    succeeds. *)
Record Startup : Type := {
  socket_ok : bool;
  setsockopt_ok : bool;
  bind_ok : bool;
  listen_ok : bool
}.

(** What one turn of the accept loop meets: [accept] returning -1, or a
    client, with the world as it is while the client is served and what
    [read] delivers on its socket ([None] when [read] returns -1). *)
Inductive arrival : Type :=
| AcceptFailed
| Accepted (w : World) (received : option (list byte)).

(** [memset(buffer, 0, size)]. *)
Definition memset_zero (size : N) : list byte := repeat x00 (N.to_nat size).

(** [read(fd, buffer, count)]: at most [count] of the bytes delivered
    replace the start of the buffer; the value returned is their number,
    or -1. *)
Definition read (received : option (list byte)) (buffer : list byte)
    (count : N) : list byte * Z :=
  match received with
  | None => (buffer, (-1)%Z)
  | Some bytes =>
      let got := firstn (N.to_nat count) bytes in
      ((got ++ skipn (List.length got) buffer)%list,
       Z.of_nat (List.length got))
  end.

(** [buffer[i] = b]. *)
Definition poke (buffer : list byte) (i : nat) (b : byte) : list byte :=
  (firstn i buffer ++ b :: skipn (S i) buffer)%list.

(** A buffer read as a [const char*]: the characters before its first
    NUL. *)
Fixpoint c_string (buffer : list byte) : string :=
  match buffer with
  | [] => EmptyString
  | b :: rest =>
      if Byte.eqb b x00 then EmptyString
      else String (ascii_of_byte b) (c_string rest)
  end.

(** Lines 262-275, the body of the loop for an accepted client: what is
    written on its socket before it is closed. *)
Definition serve_connection (w : World) (received : option (list byte))
    : exec writes :=
  let buffer := memset_zero BUFFER_SIZE in
  let '(buffer, bytes_read) := read received buffer (BUFFER_SIZE - 1) in
  if (0 <? bytes_read)%Z
  then
    let buffer := poke buffer (Z.to_nat bytes_read) x00 in
    handle_request w (c_string buffer)
  else ret [].

(** The accept loop over the arrivals of a finite stretch of time: what
    each accepted client was sent, in order. *)
Fixpoint accept_loop (arrivals : list arrival) : exec (list writes) :=
  match arrivals with
  | [] => ret []
  | AcceptFailed :: later => accept_loop later
  | Accepted w received :: later =>
      sent <- serve_connection w received ;;
      others <- accept_loop later ;;
      ret (sent :: others)
  end.

(** How [main] stands after the arrivals: gone through [exit], with the
    status, the text given to [perror] and whether the server socket was
    closed first, or still in its loop. *)
Inductive ending : Type :=
| Exited (status : Z) (message : string) (server_socket_closed : bool)
| Serving (connections : list writes).

Definition main (s : Startup) (arrivals : list arrival) : exec ending :=
  if negb (socket_ok s)
  then ret (Exited EXIT_FAILURE "Failed to create socket" false)
  else if negb (setsockopt_ok s)
  then ret (Exited EXIT_FAILURE "Failed to set socket options" true)
  else if negb (bind_ok s)
  then ret (Exited EXIT_FAILURE "Failed to bind socket" true)
  else if negb (listen_ok s)
  then ret (Exited EXIT_FAILURE "Failed to listen on socket" true)
  else
    connections <- accept_loop arrivals ;;
    ret (Serving connections).

(** ** Notions the further properties are stated with *)

(** Whether a string holds a white-space character. *)
Fixpoint has_space (s : string) : bool :=
  match s with
  | EmptyString => false
  | String c s' => isspace c || has_space s'
  end.

(** The clients among the arrivals. *)
Fixpoint clients (arrivals : list arrival)
    : list (World * option (list byte)) :=
  match arrivals with
  | [] => []
  | AcceptFailed :: later => clients later
  | Accepted w received :: later => (w, received) :: clients later
  end.

(** Whether [read] delivered at least one byte. *)
Definition delivered_bytes (received : option (list byte)) : bool :=
  match received with
  | Some (_ :: _) => true
  | _ => false
  end.

(** Whether a text holds the NUL character. *)
Fixpoint has_nul (s : string) : bool :=
  match s with
  | EmptyString => false
  | String c s' => Ascii.eqb c "000" || has_nul s'
  end.

(** A text as the bytes a client sends. *)
Definition bytes_of (s : string) : list byte := list_byte_of_string s.

(** A server whose four set-up calls succeed. *)
Definition all_ok : Startup :=
  {| socket_ok := true; setsockopt_ok := true;
     bind_ok := true; listen_ok := true |}.

(** * Facts about the C library model *)

Section StringFacts.

Lemma length_append (a b : string) :
  String.length (a ++ b) = String.length a + String.length b.
Proof. induction a as [|c a IH]; simpl; [reflexivity | now rewrite IH]. Qed.

Lemma length_list_byte_of_string (s : string) :
  List.length (list_byte_of_string s) = String.length s.
Proof.
  unfold list_byte_of_string. rewrite length_map.
  induction s as [|c s IH]; simpl; [reflexivity | now rewrite IH].
Qed.

Lemma list_byte_of_string_inj (a b : string) :
  list_byte_of_string a = list_byte_of_string b -> a = b.
Proof.
  intros H. rewrite <- (string_of_list_byte_of_string a), H.
  apply string_of_list_byte_of_string.
Qed.

Lemma list_byte_of_string_nil (s : string) :
  list_byte_of_string s = [] -> s = "".
Proof.
  intros H. apply (f_equal (@List.length byte)) in H.
  rewrite length_list_byte_of_string in H. now destruct s.
Qed.

Lemma append_assoc (a b c : string) : (a ++ b) ++ c = a ++ b ++ c.
Proof. induction a as [|x a IH]; simpl; [reflexivity | now rewrite IH]. Qed.

Lemma strcmp_eq0_true (a b : string) : strcmp_eq0 a b = true <-> a = b.
Proof. apply String.eqb_eq. Qed.

Lemma strcmp_eq0_false (a b : string) : strcmp_eq0 a b = false <-> a <> b.
Proof. apply String.eqb_neq. Qed.

End StringFacts.

(** ** [strrchr] finds the last occurrence *)

Section Strrchr.

Variable c : ascii.

Lemma strrchr_absent (s : string) :
  occurs c s = false -> strrchr s c = None.
Proof.
  induction s as [|a s IH]; simpl; [reflexivity|].
  intros H. apply orb_false_elim in H as [Ha Hs].
  now rewrite (IH Hs), Ha.
Qed.

Lemma strrchr_present (s : string) :
  occurs c s = true -> strrchr s c <> None.
Proof.
  induction s as [|a s IH]; simpl; [discriminate|].
  intros H. destruct (strrchr s c) eqn:E; [discriminate|].
  destruct (Ascii.eqb a c) eqn:Ea; [discriminate|].
  simpl in H. now apply IH in H.
Qed.

(** The result is the suffix that starts at the last [c]. *)
Lemma strrchr_last (before after : string) :
  occurs c after = false ->
  strrchr (before ++ String c after) c = Some (String c after).
Proof.
  intros H. induction before as [|a before IH]; simpl.
  - now rewrite (strrchr_absent _ H), Ascii.eqb_refl.
  - now rewrite IH.
Qed.

(** Every string in which [c] occurs splits at its last [c]. *)
Lemma occurs_split_last (s : string) :
  occurs c s = true ->
  exists before after,
    s = before ++ String c after /\ occurs c after = false.
Proof.
  induction s as [|a s IH]; simpl; [discriminate|].
  intros H. destruct (occurs c s) eqn:Es.
  - destruct (IH eq_refl) as (before & after & -> & Hafter).
    now exists (String a before), after.
  - rewrite orb_false_r in H. apply Ascii.eqb_eq in H as ->.
    now exists "", s.
Qed.

End Strrchr.

(** ** The decimal conversions *)

Section Decimal.

Lemma utoa_fuel_app (fuel : nat) (n : N) (acc : string) :
  utoa_fuel fuel n acc = utoa_fuel fuel n "" ++ acc.
Proof.
  revert n acc. induction fuel as [|fuel IH]; intros n acc; simpl.
  - reflexivity.
  - destruct (n <? 10)%N; [reflexivity|].
    rewrite IH, (IH _ (String _ "")), append_assoc. reflexivity.
Qed.

Lemma utoa_fuel_length (fuel : nat) (n : N) (acc : string) :
  String.length (utoa_fuel fuel n acc) <= fuel + String.length acc.
Proof.
  revert n acc. induction fuel as [|fuel IH]; intros n acc; simpl.
  - lia.
  - destruct (n <? 10)%N; simpl; [lia|].
    specialize (IH (n / 10)%N (String (digit_char (n mod 10)) acc)).
    simpl in IH. lia.
Qed.

(** A [size_t] prints in at most 64 characters (20, in fact; the coarse
    bound is all the header buffer needs). *)
Lemma utoa_length_size_t (n : N) :
  (n <= SIZE_MAX)%N -> String.length (utoa n) <= 64.
Proof.
  intros Hn. unfold utoa.
  pose proof (utoa_fuel_length (S (N.to_nat (N.log2 n))) n "") as H.
  change (String.length "") with 0 in H.
  assert (N.log2 n < 64)%N.
  { destruct (N.eq_dec n 0) as [->|Hz]; [reflexivity|].
    apply N.log2_lt_pow2; [lia|]. unfold SIZE_MAX in Hn. lia. }
  lia.
Qed.

Lemma size_t_of_off_t_range (z : Z) : (size_t_of_off_t z <= SIZE_MAX)%N.
Proof.
  unfold size_t_of_off_t, SIZE_MAX.
  pose proof (Z.mod_pos_bound z (2 ^ 64) eq_refl). lia.
Qed.

(** A size that an [off_t] holds converts to itself. *)
Lemma size_t_of_off_t_id (n : N) :
  (n <= SIZE_MAX)%N -> size_t_of_off_t (Z.of_N n) = n.
Proof.
  unfold size_t_of_off_t, SIZE_MAX. intros H.
  rewrite Z.mod_small by lia. apply N2Z.id.
Qed.

End Decimal.

(** ** Printing a number and reading it back *)

Section PrintRead.

Lemma digit_char_spec (d : N) :
  (d < 10)%N ->
  is_digit (digit_char d) = true /\ (N_of_ascii (digit_char d) - 48 = d)%N.
Proof.
  intros Hd. unfold is_digit, digit_char.
  rewrite N_ascii_embedding by lia. split; [|lia].
  apply andb_true_intro. split; apply N.leb_le; lia.
Qed.

Lemma read_digits_digit (acc d : N) (s : string) :
  (d < 10)%N ->
  read_digits acc (String (digit_char d) s) = read_digits (acc * 10 + d) s.
Proof.
  intros Hd. destruct (digit_char_spec d Hd) as [H1 H2].
  simpl. now rewrite H1, H2.
Qed.

(** With enough fuel the digits printed read back as the number. *)
Lemma read_utoa_fuel (fuel : nat) :
  forall (n : N) (rest : string),
    (n < 2 ^ N.of_nat fuel)%N ->
    exists k, forall acc,
      read_digits acc (utoa_fuel fuel n rest)
      = read_digits (acc * 10 ^ k + n) rest.
Proof.
  induction fuel as [|fuel IH]; intros n rest Hn.
  - exists 0%N. intros acc. simpl in *.
    replace (acc * 1 + n)%N with acc by lia. reflexivity.
  - simpl utoa_fuel. destruct (N.ltb_spec n 10) as [Hlt|Hge].
    + exists 1%N. intros acc. rewrite N.mod_small by lia.
      rewrite read_digits_digit by lia. f_equal.
    + assert (Hdiv : (n / 10 < 2 ^ N.of_nat fuel)%N).
      { rewrite Nat2N.inj_succ, N.pow_succ_r' in Hn.
        apply N.Div0.div_lt_upper_bound. lia. }
      destruct (IH (n / 10)%N (String (digit_char (n mod 10)) rest) Hdiv)
        as [k Hk].
      exists (N.succ k). intros acc. rewrite Hk.
      rewrite read_digits_digit by (apply N.mod_lt; lia).
      f_equal. rewrite N.pow_succ_r'.
      pose proof (N.div_mod n 10 ltac:(lia)). lia.
Qed.

Lemma utoa_fuel_sufficient (n : N) :
  (n < 2 ^ N.of_nat (S (N.to_nat (N.log2 n))))%N.
Proof.
  rewrite Nat2N.inj_succ, N2Nat.id.
  destruct (N.eq_dec n 0) as [->|Hz]; [reflexivity|].
  apply N.log2_spec. lia.
Qed.

Lemma utoa_fuel_head (fuel : nat) :
  forall (n : N) (acc : string),
    exists d s, utoa_fuel (S fuel) n acc = String d s /\ is_digit d = true.
Proof.
  induction fuel as [|fuel IH]; intros n acc.
  - simpl. exists (digit_char (n mod 10)), acc.
    split; [now destruct (n <? 10)%N|].
    apply digit_char_spec, N.mod_lt. lia.
  - change (utoa_fuel (S (S fuel)) n acc)
      with (if (n <? 10)%N then String (digit_char (n mod 10)) acc
            else utoa_fuel (S fuel) (n / 10)
                   (String (digit_char (n mod 10)) acc)).
    destruct (n <? 10)%N.
    + exists (digit_char (n mod 10)), acc. split; [reflexivity|].
      apply digit_char_spec, N.mod_lt. lia.
    + apply IH.
Qed.

(** [%zu] followed by anything that does not start with a digit reads
    back as the number printed. *)
Lemma read_number_utoa (n : N) (rest : string) :
  match rest with
  | EmptyString => True
  | String c _ => is_digit c = false
  end ->
  read_number (utoa n ++ rest) = Some n.
Proof.
  intros Hrest. unfold utoa. rewrite <- utoa_fuel_app.
  destruct (utoa_fuel_head (N.to_nat (N.log2 n)) n rest)
    as (d & s & Hhead & Hd).
  unfold read_number. rewrite Hhead, Hd, <- Hhead. f_equal.
  destruct (read_utoa_fuel _ n rest (utoa_fuel_sufficient n)) as [k Hk].
  rewrite Hk. simpl (0 * _ + n)%N.
  destruct rest as [|c rest]; [reflexivity|].
  simpl. now rewrite Hrest.
Qed.

End PrintRead.

(** * Facts about [send_response] *)

Section SendResponse.

Lemma write_from_prefix (a b : list byte) :
  write_from (a ++ b)%list (N.of_nat (List.length a)) = inr a.
Proof.
  unfold write_from. rewrite length_app.
  destruct (N.leb_spec (N.of_nat (List.length a))
              (N.of_nat (List.length a + List.length b))) as [_|H]; [|lia].
  unfold ret. f_equal. rewrite Nat2N.id, firstn_app, firstn_all.
  rewrite Nat.sub_diag. simpl. apply app_nil_r.
Qed.

Lemma format_header_length (code : Z) (reason ctype : string) (n : N) :
  String.length (format_header code reason ctype n)
  = 67 + String.length (itoa code) + String.length reason
    + String.length ctype + String.length (utoa n).
Proof.
  unfold format_header. repeat rewrite length_append. simpl. lia.
Qed.

(** A header that fits the array is written whole. *)
Lemma snprintf_fits (text : string) :
  (strlen text < BUFFER_SIZE)%N ->
  let '(header, header_length) := snprintf BUFFER_SIZE text in
  write_from header header_length = inr (list_byte_of_string text).
Proof.
  unfold snprintf, strlen, BUFFER_SIZE. intros H.
  rewrite firstn_all2 by (rewrite length_list_byte_of_string; lia).
  rewrite <- length_list_byte_of_string. apply write_from_prefix.
Qed.

(** When the header fits, [send_response] frames the first [body_length]
    bytes of the buffer it is given. *)
Lemma send_response_fits (code : Z) (reason ctype : string)
    (content extra : list byte) :
  let r := {| statusCode := code; reasonPhrase := reason;
              contentType := ctype; body := content |} in
  (strlen (format_header code reason ctype (N.of_nat (List.length content)))
   < BUFFER_SIZE)%N ->
  send_response code reason ctype (Some (content ++ extra)%list)
    (N.of_nat (List.length content))
  = inr (frame r).
Proof.
  intros r Hfit. unfold send_response.
  pose proof (snprintf_fits _ Hfit) as Hw.
  destruct (snprintf BUFFER_SIZE _) as [header header_length].
  rewrite Hw. cbn [bind].
  unfold frame, header_block. cbn [body statusCode reasonPhrase contentType r].
  destruct content as [|b content]; [reflexivity|].
  replace (0 <? N.of_nat (List.length (b :: content)))%N with true
    by (symmetry; apply N.ltb_lt; simpl; lia).
  now rewrite write_from_prefix.
Qed.

(** A NULL body of length 0 gives the header alone. *)
Lemma send_response_null (code : Z) (reason ctype : string) :
  (strlen (format_header code reason ctype 0) < BUFFER_SIZE)%N ->
  send_response code reason ctype None 0
  = inr (frame {| statusCode := code; reasonPhrase := reason;
                  contentType := ctype; body := [] |}).
Proof.
  intros Hfit. unfold send_response.
  pose proof (snprintf_fits _ Hfit) as Hw.
  destruct (snprintf BUFFER_SIZE _) as [header header_length].
  now rewrite Hw.
Qed.

(** The three canned calls of the server. *)
Lemma send_response_404 :
  send_response 404 "Not Found" "text/html"
    (Some (literal not_found)) (strlen not_found)
  = inr (frame response_404).
Proof. vm_compute. reflexivity. Qed.

Lemma send_response_500 :
  send_response 500 "Internal Server Error" "text/html"
    (Some (literal error)) (strlen error)
  = inr (frame response_500).
Proof. vm_compute. reflexivity. Qed.

Lemma send_response_501 :
  send_response 501 "Not Implemented" "text/html"
    (Some (literal not_implemented)) (strlen not_implemented)
  = inr (frame response_501).
Proof. vm_compute. reflexivity. Qed.

End SendResponse.

(** * Facts about [get_content_type] *)

Section ContentType.

Lemma get_content_type_range (filepath : string) :
  In (get_content_type filepath) content_types.
Proof.
  unfold get_content_type, content_types.
  destruct (strrchr filepath ".") as [dot|]; [|simpl; tauto].
  repeat match goal with
         | |- context [if ?b then _ else _] => destruct b
         end; simpl; tauto.
Qed.

Lemma get_content_type_length (filepath : string) :
  String.length (get_content_type filepath) <= 22.
Proof.
  pose proof (get_content_type_range filepath) as H.
  unfold content_types in H. simpl in H.
  repeat (destruct H as [<-|H]; [simpl; lia|]). destruct H.
Qed.

(** The function is the table lookup on the suffix found. *)
Lemma table_lookup (dot : string) :
  (if strcmp_eq0 dot ".html" then "text/html"
   else if strcmp_eq0 dot ".css" then "text/css"
   else if strcmp_eq0 dot ".js" then "application/javascript"
   else if strcmp_eq0 dot ".json" then "application/json"
   else if strcmp_eq0 dot ".png" then "image/png"
   else if strcmp_eq0 dot ".jpg" || strcmp_eq0 dot ".jpeg" then "image/jpeg"
   else if strcmp_eq0 dot ".gif" then "image/gif"
   else if strcmp_eq0 dot ".svg" then "image/svg+xml"
   else "text/plain")
  = match lookup_extension dot mime_table with
    | Some t => t
    | None => "text/plain"
    end.
Proof.
  unfold strcmp_eq0, mime_table, lookup_extension.
  repeat match goal with
         | |- context [String.eqb dot ?e] => destruct (String.eqb dot e)
         end; reflexivity.
Qed.

End ContentType.

(** * Facts about the request parser *)

Section Scanning.

Lemma tokens_skip_space (s : string) : tokens (skip_space s) = tokens s.
Proof.
  induction s as [|c s IH]; [reflexivity|].
  simpl. destruct (isspace c) eqn:E; [assumption|].
  simpl. now rewrite E.
Qed.

Lemma skip_space_start (s : string) :
  skip_space s = "" \/ at_word_start (skip_space s) = true.
Proof.
  induction s as [|c s IH]; [now left|].
  simpl. destruct (isspace c) eqn:E; [assumption|].
  right. simpl. now rewrite E.
Qed.

Lemma scan_word_not_start (s : string) :
  at_word_start s = false -> scan_word s = ("", s).
Proof.
  destruct s as [|c s]; [reflexivity|].
  simpl. now destruct (isspace c).
Qed.

(** At the start of a word, [%s] takes the first token and leaves the
    text that holds the others. *)
Lemma scan_word_tokens (s : string) :
  at_word_start s = true ->
  exists c word rest,
    scan_word s = (String c word, rest) /\
    tokens s = String c word :: tokens rest.
Proof.
  induction s as [|c s IH]; [discriminate|].
  intros Hc. simpl in Hc. apply negb_true_iff in Hc.
  simpl. rewrite Hc.
  destruct (at_word_start s) eqn:Hs.
  - destruct (IH eq_refl) as (c' & word & rest & Hscan & Htok).
    rewrite Hscan, Htok. now exists c, (String c' word), rest.
  - rewrite (scan_word_not_start _ Hs). now exists c, "", s.
Qed.

Lemma scan_s_none (s : string) : tokens s = [] -> scan_s s = None.
Proof.
  intros H. unfold scan_s. rewrite <- tokens_skip_space in H.
  destruct (skip_space_start s) as [->|Hstart]; [reflexivity|].
  destruct (scan_word_tokens _ Hstart) as (c & word & rest & _ & Htok).
  congruence.
Qed.

Lemma scan_s_some (s t : string) (ts : list string) :
  tokens s = t :: ts ->
  exists rest, scan_s s = Some (t, rest) /\ tokens rest = ts.
Proof.
  intros H. unfold scan_s. rewrite <- tokens_skip_space in H.
  destruct (skip_space_start s) as [E|Hstart]; [now rewrite E in H|].
  destruct (scan_word_tokens _ Hstart) as (c & word & rest & Hscan & Htok).
  rewrite Htok in H. injection H as <- <-.
  exists rest. now rewrite Hscan.
Qed.

Lemma store_fits (size : N) (word : string) :
  (strlen word < size)%N -> store size word = inr word.
Proof.
  intros H. unfold store. apply N.ltb_lt in H. now rewrite H.
Qed.

Lemma store_inv (size : N) (word stored : string) :
  store size word = inr stored -> stored = word /\ (strlen word < size)%N.
Proof.
  unfold store. destruct (N.ltb_spec (strlen word) size); [|discriminate].
  intros [= <-]. now split.
Qed.

(** A request that parses has three tokens that fit their arrays. *)
Lemma parse_request_inv (request : string) (req : Request) :
  parse_request request = inr req ->
  (strlen (method req) < 16)%N /\ (strlen (target req) < 256)%N /\
  (strlen (version req) < 16)%N /\
  exists rest,
    tokens request = method req :: target req :: version req :: rest.
Proof.
  unfold parse_request, sscanf_s_s_s.
  destruct (tokens request) as [|t1 ts1] eqn:T1.
  { now rewrite (scan_s_none _ T1). }
  destruct (scan_s_some _ _ _ T1) as (r1 & -> & T2).
  destruct (store 16 t1) as [|a1] eqn:S1; [discriminate|].
  apply store_inv in S1 as [-> L1]. cbn [bind].
  destruct ts1 as [|t2 ts2].
  { now rewrite (scan_s_none _ T2). }
  destruct (scan_s_some _ _ _ T2) as (r2 & -> & T3).
  destruct (store 256 t2) as [|a2] eqn:S2; [discriminate|].
  apply store_inv in S2 as [-> L2]. cbn [bind].
  destruct ts2 as [|t3 ts3].
  { now rewrite (scan_s_none _ T3). }
  destruct (scan_s_some _ _ _ T3) as (r3 & -> & T4).
  destruct (store 16 t3) as [|a3] eqn:S3; [discriminate|].
  apply store_inv in S3 as [-> L3]. cbn.
  intros [= <-]. cbn. repeat split; try assumption. now exists ts3.
Qed.

Lemma parse_request_tokens (request t1 t2 t3 : string) (rest : list string) :
  tokens request = t1 :: t2 :: t3 :: rest ->
  (strlen t1 < 16)%N -> (strlen t2 < 256)%N -> (strlen t3 < 16)%N ->
  parse_request request
  = inr {| method := t1; target := t2; version := t3 |}.
Proof.
  intros T L1 L2 L3. unfold parse_request, sscanf_s_s_s.
  destruct (scan_s_some _ _ _ T) as (r1 & -> & T2).
  rewrite (store_fits _ _ L1). cbn [bind].
  destruct (scan_s_some _ _ _ T2) as (r2 & -> & T3).
  rewrite (store_fits _ _ L2). cbn [bind].
  destruct (scan_s_some _ _ _ T3) as (r3 & -> & _).
  rewrite (store_fits _ _ L3). reflexivity.
Qed.

(** The path is built without overflow from any target that parsed. *)
Lemma build_filepath_fits (path : string) :
  (strlen path < 256)%N ->
  build_filepath path = inr (resolved_path path).
Proof.
  intros H. unfold build_filepath, resolved_path, strcat, strcmp_eq0.
  destruct (String.eqb_spec path "/") as [->|_]; [reflexivity|].
  apply store_fits. unfold strlen in *. simpl. lia.
Qed.

End Scanning.

(** * Facts about [send_file] and [handle_request] *)

Section Serving.

Variable w : World.

Lemma malloc_length (size : N) (block : list byte) :
  malloc w size = Some block -> List.length block = N.to_nat size.
Proof.
  unfold malloc. destruct (malloc_ok w size); [|discriminate].
  intros [= <-]. now rewrite length_map, length_seq.
Qed.

Lemma fread_length (block file : list byte) (n : N) :
  List.length block = N.to_nat n ->
  List.length (fread block n file) = N.to_nat n.
Proof.
  intros Hb. unfold fread.
  rewrite length_app, length_skipn, length_firstn, Hb. lia.
Qed.

(** A stream that delivers exactly the bytes asked for fills the block
    with them. *)
Lemma fread_exact (block file : list byte) (n : N) :
  List.length block = N.to_nat n ->
  List.length file = N.to_nat n ->
  fread block n file = file.
Proof.
  intros Hb Hf. unfold fread.
  rewrite <- Hf, firstn_all, Hf, <- Hb, skipn_all. apply app_nil_r.
Qed.

(** Whatever the stream delivers, the block starts with the bytes read. *)
Lemma fread_prefix (block file : list byte) (n : N) :
  exists tail,
    fread block n file = (firstn (N.to_nat n) file ++ tail)%list.
Proof. unfold fread. eexists. reflexivity. Qed.

Lemma header_200_fits (filepath : string) (n : N) :
  (n <= SIZE_MAX)%N ->
  (strlen (format_header 200 "OK" (get_content_type filepath) n)
   < BUFFER_SIZE)%N.
Proof.
  intros Hn. unfold strlen, BUFFER_SIZE. rewrite format_header_length.
  pose proof (get_content_type_length filepath).
  pose proof (utoa_length_size_t n Hn).
  change (String.length (itoa 200)) with 3.
  change (String.length "OK") with 2. lia.
Qed.

Lemma send_file_found (filepath : string) (st_size : Z)
    (file block : list byte) :
  stat w filepath = Some st_size ->
  fopen w filepath = Some file ->
  malloc w (size_t_of_off_t st_size) = Some block ->
  send_file w filepath
  = inr (frame (response_200 (get_content_type filepath)
                  (fread block (size_t_of_off_t st_size) file))).
Proof.
  intros Hstat Hopen Halloc. unfold send_file.
  rewrite Hstat, Hopen, Halloc.
  pose proof (fread_length block file _ (malloc_length _ _ Halloc)) as Hlen.
  set (content := fread block (size_t_of_off_t st_size) file) in *.
  rewrite <- (app_nil_r content) at 1.
  replace (size_t_of_off_t st_size) with (N.of_nat (List.length content))
    by (rewrite Hlen; apply N2Nat.id).
  apply send_response_fits.
  apply header_200_fits. rewrite Hlen, N2Nat.id.
  apply size_t_of_off_t_range.
Qed.

(** [send_file] frames the response of the File Loader's outcome. *)
Lemma send_file_frames (filepath : string) :
  send_file w filepath = inr (frame (respond_file w filepath)).
Proof.
  unfold respond_file, load_file.
  destruct (stat w filepath) as [st_size|] eqn:Hstat.
  - destruct (fopen w filepath) as [file|] eqn:Hopen.
    + destruct (malloc w (size_t_of_off_t st_size)) as [block|] eqn:Halloc.
      * now apply send_file_found.
      * unfold send_file. rewrite Hstat, Hopen, Halloc.
        apply send_response_500.
    + unfold send_file. rewrite Hstat, Hopen. apply send_response_500.
  - unfold send_file. rewrite Hstat. apply send_response_404.
Qed.

(** A request that parses is always answered, with the Router's
    response. *)
Lemma handle_request_frames (request : string) (req : Request) :
  parse_request request = inr req ->
  handle_request w request = inr (frame (route w req)).
Proof.
  intros Hparse. unfold handle_request, route, strcmp_eq0.
  rewrite Hparse. cbn [bind].
  destruct (parse_request_inv _ _ Hparse) as (_ & Htarget & _).
  destruct (String.eqb (method req) "GET"); cbn [negb].
  - rewrite (build_filepath_fits _ Htarget). cbn [bind].
    apply send_file_frames.
  - apply send_response_501.
Qed.

(** A request that does not parse is not answered in any defined way. *)
Lemma handle_request_faults (request : string) (f : fault) :
  parse_request request = inl f -> handle_request w request = inl f.
Proof. intros H. unfold handle_request. now rewrite H. Qed.

Lemma handle_request_inv (request : string) (out : writes) :
  handle_request w request = inr out ->
  exists req, parse_request request = inr req /\ out = frame (route w req).
Proof.
  intros H. destruct (parse_request request) as [f|req] eqn:Hparse.
  - rewrite (handle_request_faults _ _ Hparse) in H. discriminate.
  - rewrite (handle_request_frames _ _ Hparse) in H.
    injection H as <-. now exists req.
Qed.

End Serving.

(** * Reading the fields back from the header block *)

Section Fields.

Lemma route_served (w : World) (req : Request) : served (route w req).
Proof.
  unfold route, respond_file, served.
  destruct (String.eqb (method req) "GET"); [|tauto].
  destruct (load_file w (resolved_path (target req))) as [bytes| |];
    [|tauto|tauto].
  right; right; right. now exists (resolved_path (target req)), bytes.
Qed.

Lemma fields_200 (ct : string) (content : list byte) :
  In ct content_types ->
  let header := header_block (response_200 ct content) in
  content_length_field header = Some (N.of_nat (List.length content)) /\
  content_type_field header = Some ct /\
  status_code_field header = Some 200%N.
Proof.
  intros Hct header. subst header.
  unfold content_length_field, content_type_field, status_code_field,
    header_block.
  rewrite string_of_list_byte_of_string.
  cbn [statusCode reasonPhrase contentType body response_200].
  unfold format_header. change (itoa 200) with "200".
  generalize (N.of_nat (List.length content)) as n. intros n.
  unfold content_types in Hct. simpl in Hct.
  repeat (destruct Hct as [<-|Hct];
          [ cbn -[utoa read_number]; repeat split;
            apply read_number_utoa; reflexivity |]).
  destruct Hct.
Qed.

Lemma fields_served (r : HttpResponse) :
  served r ->
  content_length_field (header_block r)
  = Some (N.of_nat (List.length (body r))) /\
  content_type_field (header_block r) = Some (contentType r) /\
  status_code_field (header_block r) = Some (Z.to_N (statusCode r)).
Proof.
  intros [->|[->|[->|(filepath & content & ->)]]];
    try (vm_compute; repeat split; reflexivity).
  apply fields_200, get_content_type_range.
Qed.

Lemma frame_shape (r : HttpResponse) :
  exists rest,
    frame r = header_block r :: rest /\ List.concat rest = body r.
Proof.
  unfold frame. destruct (body r) as [|b bs] eqn:E.
  - now exists [].
  - exists [b :: bs]. simpl. now rewrite app_nil_r.
Qed.

End Fields.

(** * The claims *)

(** ** C1 *)




(** ** C2 *)

(** C2: [get_content_type] returns text/plain for a path without a dot;
    for a path whose last dot is followed by [after], it returns the entry
    of the MIME table for the suffix made of that dot and [after], compared
    case-sensitively, and text/plain when the table has none.  Every path
    is of one of the two kinds, so the function is total; being a function
    of its argument alone, it has no effect. *)
Theorem C2_get_content_type_table (filepath : string) :
  (occurs "." filepath = false -> get_content_type filepath = "text/plain") /\
  (forall before after,
     filepath = before ++ String "." after ->
     occurs "." after = false ->
     get_content_type filepath
     = match lookup_extension (String "." after) mime_table with
       | Some type => type
       | None => "text/plain"
       end) /\
  (occurs "." filepath = false \/
   exists before after,
     filepath = before ++ String "." after /\ occurs "." after = false).
Proof.
  split; [|split].
  - intros H. unfold get_content_type. now rewrite (strrchr_absent _ _ H).
  - intros before after -> H. unfold get_content_type.
    rewrite (strrchr_last _ _ _ H). apply table_lookup.
  - destruct (occurs "." filepath) eqn:E; [right|now left].
    now apply occurs_split_last.
Qed.

(** A suffix the table lacks and one it holds, after an earlier dot. *)
Lemma C2_witness :
  occurs "." "me" = false /\
  get_content_type "./read.me" = "text/plain" /\
  occurs "." "jpeg" = false /\
  get_content_type "./img/photo.v2.jpeg" = "image/jpeg".
Proof.
  split; [reflexivity|]. split.
  - destruct (C2_get_content_type_table "./read.me") as (_ & H & _).
    exact (H "./read" "me" eq_refl eq_refl).
  - split; [reflexivity|].
    destruct (C2_get_content_type_table "./img/photo.v2.jpeg") as (_ & H & _).
    exact (H "./img/photo.v2" "jpeg" eq_refl eq_refl).
Defined.

(** The table on the nine extensions and on the spellings it does not
    hold: the comparison is case-sensitive and on the whole suffix. *)
Example get_content_type_examples :
  map get_content_type
    [ "f.html"; "f.css"; "f.js"; "f.json"; "f.png"; "f.jpg"; "f.jpeg";
      "f.gif"; "f.svg"; "f.xyz"; "f"; "f.HTML"; "f.Jpg"; "f.html.bak";
      "./a.b/f"; "f." ]
  = [ "text/html"; "text/css"; "application/javascript"; "application/json";
      "image/png"; "image/jpeg"; "image/jpeg"; "image/gif"; "image/svg+xml";
      "text/plain"; "text/plain"; "text/plain"; "text/plain"; "text/plain";
      "text/plain"; "text/plain" ].
Proof. reflexivity. Qed.

(** ** C3 *)

(** C3: in every response the server emits, the number written after
    [Content-Length: ] in the header block is the number of bytes written
    on the connection after the header. *)
Theorem C3_content_length_is_body_length
    (w : World) (request : string) (out : writes) :
  handle_request w request = inr out ->
  exists header rest,
    out = header :: rest /\
    content_length_field header
    = Some (N.of_nat (List.length (List.concat rest))).
Proof.
  intros H. apply handle_request_inv in H as (req & _ & ->).
  destruct (frame_shape (route w req)) as (rest & -> & Hrest).
  exists (header_block (route w req)), rest. split; [reflexivity|].
  rewrite Hrest. apply fields_served, route_served.
Qed.

(** A three-byte style sheet: the field reads 3 and three bytes follow. *)
Lemma C3_witness :
  let w := regular_file "./a.css" [x61; x7b; x7d] in
  exists header rest,
    handle_request w "GET /a.css HTTP/1.1" = inr (header :: rest) /\
    content_length_field header = Some 3%N /\
    List.length (List.concat rest) = 3.
Proof.
  intros w.
  destruct (C3_content_length_is_body_length w "GET /a.css HTTP/1.1" _ eq_refl)
    as (header & rest & Hout & Hfield).
  exists header, rest. injection Hout as <- <-.
  repeat split.
Defined.

(** ** C4 *)

(** C4: a request that parses with a method other than GET is answered,
    whatever its target and whatever the file system holds, with the 501
    response: content type text/html and the literal 501 page.  The answer
    is the same in every world, so nothing of the file system is
    consulted. *)
Theorem C4_other_methods_get_501 (request : string) (req : Request) :
  parse_request request = inr req ->
  method req <> "GET" ->
  forall w : World, handle_request w request = inr (frame response_501).
Proof.
  intros Hparse Hmethod w.
  rewrite (handle_request_frames w _ _ Hparse). unfold route.
  apply String.eqb_neq in Hmethod. now rewrite Hmethod.
Qed.

(** A POST for a file that exists. *)
Lemma C4_witness :
  parse_request "POST /anything HTTP/1.1"
  = inr {| method := "POST"; target := "/anything"; version := "HTTP/1.1" |} /\
  "POST" <> "GET" /\
  handle_request (regular_file "./anything" [x61]) "POST /anything HTTP/1.1"
  = inr (frame response_501).
Proof.
  split; [reflexivity|]. split; [discriminate|].
  apply (C4_other_methods_get_501 "POST /anything HTTP/1.1"
           {| method := "POST"; target := "/anything";
              version := "HTTP/1.1" |}).
  - reflexivity.
  - discriminate.
Defined.

(** ** C5 *)

(** C5: for a GET request the path handed to [send_file] is
    [./index.html] when the target is exactly [/], and otherwise the root
    [.] followed by the target as it stands. *)
Theorem C5_resolved_path (w : World) (request : string) (req : Request) :
  parse_request request = inr req ->
  method req = "GET" ->
  exists filepath,
    build_filepath (target req) = inr filepath /\
    handle_request w request = send_file w filepath /\
    (target req = "/" -> filepath = "./index.html") /\
    (target req <> "/" -> filepath = "." ++ target req).
Proof.
  intros Hparse Hmethod.
  destruct (parse_request_inv _ _ Hparse) as (_ & Htarget & _).
  exists (resolved_path (target req)).
  pose proof (build_filepath_fits _ Htarget) as Hbuild.
  split; [assumption|]. split; [|split].
  - unfold handle_request. rewrite Hparse. cbn [bind].
    rewrite Hmethod. cbn. now rewrite Hbuild.
  - intros ->. reflexivity.
  - intros Hne. unfold resolved_path.
    apply String.eqb_neq in Hne. now rewrite Hne.
Qed.

(** A target with a [..] segment goes into the path as it stands. *)
Lemma C5_witness :
  parse_request "GET /../etc/passwd HTTP/1.0"
  = inr {| method := "GET"; target := "/../etc/passwd";
           version := "HTTP/1.0" |} /\
  exists filepath,
    build_filepath "/../etc/passwd" = inr filepath /\
    filepath = "./../etc/passwd".
Proof.
  split; [reflexivity|].
  destruct (C5_resolved_path no_files "GET /../etc/passwd HTTP/1.0"
              {| method := "GET"; target := "/../etc/passwd";
                 version := "HTTP/1.0" |} eq_refl eq_refl)
    as (filepath & Hbuild & _ & _ & Hverbatim).
  exists filepath. split; [exact Hbuild|].
  apply Hverbatim. discriminate.
Defined.

(** The two branches on sample targets. *)
Example build_filepath_examples :
  map build_filepath ["/"; "/index.html"; "/a/../b"; "//"; "/?q=1"]
  = map inr ["./index.html"; "./index.html"; "./a/../b"; ".//"; "./?q=1"].
Proof. reflexivity. Qed.

(** ** C6 *)

(** C6, as stated, fails for a reason phrase that makes the header block
    longer than the 8192-byte array: [snprintf] truncates the text and
    returns the length it would have needed, and [write] is then asked
    for more bytes than the array holds. *)
Lemma C6_counterexample :
  send_response 200 (replicate (N.to_nat 8200) "A") "text/html" (Some []) 0
  = inl BufferOverread.
Proof. vm_compute. reflexivity. Qed.

(** C6, amended: for every status code, reason phrase, content type and
    body whose header block is shorter than the 8192-byte array,
    [send_response] writes the header block
    [HTTP/1.1 <code> <reason>CRLF Content-Type: <type>CRLF
     Content-Length: <length>CRLF Connection: close CRLF CRLF],
    which takes nothing from the request, and then the body bytes, in a
    second [write], only when the body is not empty. *)
Theorem C6_header_block_form
    (status_code : Z) (status_text content_type : string)
    (content : list byte) :
  let body_length := N.of_nat (List.length content) in
  let header :=
    "HTTP/1.1 " ++ itoa status_code ++ " " ++ status_text ++ CRLF ++
    "Content-Type: " ++ content_type ++ CRLF ++
    "Content-Length: " ++ utoa body_length ++ CRLF ++
    "Connection: close" ++ CRLF ++ CRLF in
  (strlen header < BUFFER_SIZE)%N ->
  send_response status_code status_text content_type
    (Some content) body_length
  = inr (list_byte_of_string header ::
         match content with
         | [] => []
         | _ :: _ => [content]
         end).
Proof.
  intros body_length header Hfit.
  pose proof (send_response_fits status_code status_text content_type
                content []) as H.
  cbv zeta in H. rewrite app_nil_r in H. subst body_length.
  rewrite H.
  - unfold frame, header_block. cbn [body statusCode reasonPhrase contentType].
    now destruct content.
  - exact Hfit.
Qed.

(** A status the server never sends, with an empty body. *)
Lemma C6_witness :
  (strlen
     ("HTTP/1.1 " ++ itoa 204 ++ " " ++ "No Content" ++ CRLF ++
      "Content-Type: " ++ "text/plain" ++ CRLF ++
      "Content-Length: " ++ utoa 0 ++ CRLF ++
      "Connection: close" ++ CRLF ++ CRLF) < BUFFER_SIZE)%N /\
  send_response 204 "No Content" "text/plain" (Some []) 0
  = inr [list_byte_of_string
           ("HTTP/1.1 204 No Content" ++ CRLF ++
            "Content-Type: text/plain" ++ CRLF ++
            "Content-Length: 0" ++ CRLF ++
            "Connection: close" ++ CRLF ++ CRLF)].
Proof.
  split.
  - reflexivity.
  - apply (C6_header_block_form 204 "No Content" "text/plain" []).
    reflexivity.
Defined.

(** ** C7 *)

(** C7, as stated, fails in two ways.  When the read buffer cannot be
    allocated, three bytes that are stored and readable are answered with
    the 500 page.  And a stored file whose name holds a space is not the
    path of any request: [%s] cuts the target at the space, and the GET
    request spelt with the file's path is answered with the 404 page for
    the path [./my]. *)
Lemma C7_counterexample :
  (stored out_of_memory "./data.bin" [x00; xff; x10] /\
   handle_request out_of_memory "GET /data.bin HTTP/1.1"
   = inr (frame response_500) /\
   handle_request out_of_memory "GET /data.bin HTTP/1.1"
   <> inr (frame (response_200 (get_content_type "./data.bin")
                    [x00; xff; x10]))) /\
  (let w := regular_file "./my file.txt" [x68; x69] in
   stored w "./my file.txt" [x68; x69] /\
   malloc_ok w 2 = true /\
   parse_request "GET /my file.txt HTTP/1.1"
   = inr {| method := "GET"; target := "/my"; version := "file.txt" |} /\
   handle_request w "GET /my file.txt HTTP/1.1" = inr (frame response_404) /\
   handle_request w "GET /my file.txt HTTP/1.1"
   <> inr (frame (response_200 (get_content_type "./my file.txt")
                    [x68; x69]))).
Proof.
  split.
  - split; [|split].
    + repeat split. discriminate.
    + reflexivity.
    + discriminate.
  - intros w. split; [|split; [|split; [|split]]].
    + repeat split. discriminate.
    + reflexivity.
    + reflexivity.
    + reflexivity.
    + discriminate.
Qed.

(** C7, amended: for every byte sequence of length N (N = 0 and binary
    content included) stored as a file at a path that a GET request
    names, that is, at the path built from the target of a GET request
    that parses (the target is one token: not empty, free of white space
    and shorter than 256 bytes), that request yields, whenever the file
    opens and the read buffer of N bytes is allocated, a 200 response
    whose body is exactly those N bytes. *)
Theorem C7_round_trip
    (w : World) (request : string) (req : Request) (content : list byte) :
  parse_request request = inr req ->
  method req = "GET" ->
  stored w (resolved_path (target req)) content ->
  malloc_ok w (N.of_nat (List.length content)) = true ->
  handle_request w request
  = inr (frame (response_200
                  (get_content_type (resolved_path (target req))) content)).
Proof.
  intros Hparse Hmethod (Hsize & Hstat & Hopen) Hmem.
  rewrite (handle_request_frames w _ _ Hparse).
  unfold route, respond_file, load_file.
  rewrite Hmethod, Hstat, Hopen. cbn [String.eqb].
  change ("GET" =? "GET")%string with true. cbv iota.
  assert (Hconv : size_t_of_off_t (Z.of_nat (List.length content))
                  = N.of_nat (List.length content)).
  { rewrite <- nat_N_Z. apply size_t_of_off_t_id.
    unfold OFF_MAX in Hsize. unfold SIZE_MAX. lia. }
  rewrite Hconv. unfold malloc. rewrite Hmem.
  rewrite fread_exact; [reflexivity| |];
    rewrite ?length_map, ?length_seq; now rewrite Nat2N.id.
Qed.

(** Four bytes of binary content, a NUL among them, and the empty
    file. *)
Lemma C7_witness :
  (let w := regular_file "./img/dot.png" [x89; x50; x00; xff] in
   parse_request "GET /img/dot.png HTTP/1.1"
   = inr {| method := "GET"; target := "/img/dot.png";
            version := "HTTP/1.1" |} /\
   stored w "./img/dot.png" [x89; x50; x00; xff] /\
   malloc_ok w 4 = true /\
   handle_request w "GET /img/dot.png HTTP/1.1"
   = inr (frame (response_200 "image/png" [x89; x50; x00; xff]))) /\
  (let w := regular_file "./empty.png" [] in
   stored w "./empty.png" [] /\
   malloc_ok w 0 = true /\
   handle_request w "GET /empty.png HTTP/1.1"
   = inr (frame (response_200 "image/png" []))).
Proof.
  split; intros w.
  - assert (Hstored : stored w "./img/dot.png" [x89; x50; x00; xff]).
    { repeat split. discriminate. }
    split; [reflexivity|]. split; [exact Hstored|]. split; [reflexivity|].
    exact (C7_round_trip w "GET /img/dot.png HTTP/1.1"
             {| method := "GET"; target := "/img/dot.png";
                version := "HTTP/1.1" |} [x89; x50; x00; xff]
             eq_refl eq_refl Hstored eq_refl).
  - assert (Hstored : stored w "./empty.png" []).
    { repeat split. discriminate. }
    split; [exact Hstored|]. split; [reflexivity|].
    exact (C7_round_trip w "GET /empty.png HTTP/1.1"
             {| method := "GET"; target := "/empty.png";
                version := "HTTP/1.1" |} [] eq_refl eq_refl Hstored eq_refl).
Defined.

(** Binary content, a NUL byte included, comes back unchanged. *)
Example round_trip_binary :
  handle_request (regular_file "./blob" [x00; xff; x0d; x0a; x00])
    "GET /blob HTTP/1.1"
  = inr (frame (response_200 "text/plain" [x00; xff; x0d; x0a; x00])).
Proof. reflexivity. Qed.

(** ** C8 *)

(** C8, as stated, fails for a token as long as its array: the sixteen
    characters of the WebDAV method BASELINE-CONTROL and their NUL take
    seventeen bytes of the sixteen-byte [method]. *)
Lemma C8_counterexample :
  let request := "BASELINE-CONTROL / HTTP/1.1" in
  tokens request = ["BASELINE-CONTROL"; "/"; "HTTP/1.1"] /\
  (strlen "BASELINE-CONTROL" <= 16)%N /\
  (strlen "/" <= 256)%N /\
  (strlen "HTTP/1.1" <= 16)%N /\
  parse_request request = inl BufferOverflow /\
  parse_request request
  <> inr {| method := "BASELINE-CONTROL"; target := "/";
            version := "HTTP/1.1" |}.
Proof. repeat split; try reflexivity; discriminate. Qed.

(** C8, amended: for every input buffer with at least three
    white-space-delimited tokens that fit their arrays together with the
    terminating NUL (method of at most 15, target of at most 255, version
    of at most 15 bytes), the parser returns the request whose method,
    target and version are exactly the first, second and third token. *)
Theorem C8_parser_takes_three_tokens
    (request t1 t2 t3 : string) (others : list string) :
  tokens request = t1 :: t2 :: t3 :: others ->
  (strlen t1 <= 15)%N -> (strlen t2 <= 255)%N -> (strlen t3 <= 15)%N ->
  parse_request request
  = inr {| method := t1; target := t2; version := t3 |}.
Proof.
  intros Htokens H1 H2 H3.
  apply (parse_request_tokens request t1 t2 t3 others Htokens); lia.
Qed.

(** A fifteen-byte method, tokens parted by TAB, spaces and CRLF. *)
Lemma C8_witness :
  let request :=
    String "009" "VERSION-CONTROL  /a%20b.html?x=1" ++ CRLF ++ "HTTP/1.1"
    ++ CRLF ++ "Host: localhost" ++ CRLF ++ CRLF in
  tokens request
  = ["VERSION-CONTROL"; "/a%20b.html?x=1"; "HTTP/1.1"; "Host:"; "localhost"] /\
  parse_request request
  = inr {| method := "VERSION-CONTROL"; target := "/a%20b.html?x=1";
           version := "HTTP/1.1" |}.
Proof.
  intros request. split; [reflexivity|].
  apply (C8_parser_takes_three_tokens request
           "VERSION-CONTROL" "/a%20b.html?x=1" "HTTP/1.1"
           ["Host:"; "localhost"]).
  - reflexivity.
  - discriminate.
  - discriminate.
  - discriminate.
Defined.

(** Fewer than three tokens leave an array unwritten, and [printf] reads
    it. *)
Example parse_request_short :
  map parse_request [""; "   "; "GET"; "GET /"]
  = [inl UninitialisedRead; inl UninitialisedRead; inl UninitialisedRead;
     inl UninitialisedRead].
Proof. reflexivity. Qed.

(** ** C9 *)

(** C9: [get_content_type] never returns the empty string, and every
    response the server emits carries a content type that is not empty,
    text/html for every response other than the 200. *)
Theorem C9_content_type_not_empty :
  (forall filepath, get_content_type filepath <> "") /\
  (forall w request out,
     handle_request w request = inr out ->
     exists r rest,
       out = frame r /\ out = header_block r :: rest /\
       content_type_field (header_block r) = Some (contentType r) /\
       contentType r <> "" /\
       (statusCode r <> 200%Z -> contentType r = "text/html")).
Proof.
  assert (Hne : forall filepath, get_content_type filepath <> "").
  { intros filepath.
    pose proof (get_content_type_range filepath) as H.
    unfold content_types in H. simpl in H.
    repeat (destruct H as [<-|H]; [discriminate|]). destruct H. }
  split; [exact Hne|].
  intros w request out H.
  apply handle_request_inv in H as (req & _ & ->).
  pose proof (route_served w req) as Hserved.
  destruct (frame_shape (route w req)) as (rest & Hframe & _).
  exists (route w req), rest.
  split; [reflexivity|]. split; [exact Hframe|].
  split; [now apply fields_served|].
  destruct Hserved as [->|[->|[->|(filepath & content & ->)]]];
    try (split; [discriminate | reflexivity]).
  split; [apply Hne | intros Hcode; now contradiction Hcode].
Qed.

(** The 404 response for a missing file. *)
Lemma C9_witness :
  exists r rest,
    handle_request no_files "GET /missing.html HTTP/1.1"
    = inr (header_block r :: rest) /\
    content_type_field (header_block r) = Some (contentType r) /\
    contentType r <> "".
Proof.
  destruct C9_content_type_not_empty as [_ H].
  destruct (H no_files "GET /missing.html HTTP/1.1" _ eq_refl)
    as (r & rest & _ & Hout & Hfield & Hne & _).
  exists r, rest. rewrite <- Hout. repeat split; assumption.
Defined.

(** ** C10 *)

(** C10: every response the server emits is the 501, the 404 or the 500
    response, each with its fixed page and content type text/html, or a
    200 OK response carrying file content; its status code, as written on
    the connection, is one of 200, 404, 500 and 501, and each of the four
    is emitted for some request. *)
Theorem C10_reachable_responses :
  (forall w request out,
     handle_request w request = inr out ->
     exists r,
       out = frame r /\
       (r = response_501 \/ r = response_404 \/ r = response_500 \/
        exists filepath content,
          r = response_200 (get_content_type filepath) content) /\
       In (statusCode r) [200; 404; 500; 501]%Z /\
       status_code_field (header_block r) = Some (Z.to_N (statusCode r)) /\
       (statusCode r <> 200%Z ->
        contentType r = "text/html" /\
        In (body r) (map list_byte_of_string
                       [not_found; error; not_implemented]))) /\
  (forall code, In code [200; 404; 500; 501]%Z ->
     exists w request r,
       handle_request w request = inr (frame r) /\ statusCode r = code).
Proof.
  split.
  - intros w request out H.
    apply handle_request_inv in H as (req & _ & ->).
    pose proof (route_served w req) as Hserved.
    exists (route w req). split; [reflexivity|]. split; [exact Hserved|].
    split; [|split; [now apply fields_served|]].
    + destruct Hserved as [->|[->|[->|(filepath & content & ->)]]];
        simpl; tauto.
    + destruct Hserved as [->|[->|[->|(filepath & content & ->)]]];
        try (intros _; split; [reflexivity | simpl; tauto]).
      intros Hcode. now contradiction Hcode.
  - intros code Hcode. simpl in Hcode.
    destruct Hcode as [<-|[<-|[<-|[<-|[]]]]].
    + exists (regular_file "./index.html" [x68; x69]), "GET / HTTP/1.1",
        (response_200 "text/html" [x68; x69]). now split.
    + exists no_files, "GET / HTTP/1.1", response_404. now split.
    + exists out_of_memory, "GET /data.bin HTTP/1.1", response_500.
      now split.
    + exists no_files, "PUT / HTTP/1.1", response_501. now split.
Qed.

(** The 500 response of a machine without memory. *)
Lemma C10_witness :
  exists r,
    handle_request out_of_memory "GET /data.bin HTTP/1.1" = inr (frame r) /\
    In (statusCode r) [200; 404; 500; 501]%Z /\
    status_code_field (header_block r) = Some (Z.to_N (statusCode r)).
Proof.
  destruct C10_reachable_responses as [H _].
  destruct (H out_of_memory "GET /data.bin HTTP/1.1" _ eq_refl)
    as (r & Hout & _ & Hcode & Hfield & _).
  exists r. rewrite <- Hout. repeat split; assumption.
Defined.

(** * Further properties of the code *)

(** ** Which requests are answered *)

Section Tokens.

(** The words [%s] takes are not empty and hold no white space. *)
Lemma tokens_are_words (s : string) :
  Forall (fun t => t <> "" /\ has_space t = false) (tokens s).
Proof.
  induction s as [|c s IH]; [constructor|].
  simpl. destruct (isspace c) eqn:Hc; [assumption|].
  destruct (at_word_start s).
  - destruct (tokens s) as [|t ts].
    + constructor; [|constructor]. split; [discriminate|].
      simpl. now rewrite Hc.
    + inversion IH as [|? ? [_ Ht] Hts]; subst.
      constructor; [|assumption]. split; [discriminate|].
      simpl. now rewrite Hc, Ht.
  - constructor; [|assumption]. split; [discriminate|].
    simpl. now rewrite Hc.
Qed.

Lemma store_too_long (size : N) (word : string) :
  (size <= strlen word)%N -> store size word = inl BufferOverflow.
Proof.
  intros H. unfold store. apply N.ltb_ge in H. now rewrite H.
Qed.

Lemma store_cases (size : N) (word : string) :
  store size word
  = if (strlen word <? size)%N then inr word else inl BufferOverflow.
Proof. reflexivity. Qed.

End Tokens.

(** [sscanf] and the [printf] after it, on the tokens of the request: the
    first of the three tokens that does not fit its array with its NUL
    overruns it, whatever follows; a request that ends before its third
    token leaves an array unwritten that [printf] then reads; and only
    three tokens that fit give the three fields. *)
Theorem parse_request_by_tokens (request : string) :
  parse_request request
  = match tokens request with
    | [] => inl UninitialisedRead
    | t1 :: after1 =>
        if (strlen t1 <? 16)%N then
          match after1 with
          | [] => inl UninitialisedRead
          | t2 :: after2 =>
              if (strlen t2 <? 256)%N then
                match after2 with
                | [] => inl UninitialisedRead
                | t3 :: _ =>
                    if (strlen t3 <? 16)%N
                    then inr {| method := t1; target := t2; version := t3 |}
                    else inl BufferOverflow
                end
              else inl BufferOverflow
          end
        else inl BufferOverflow
    end.
Proof.
  unfold parse_request, sscanf_s_s_s.
  destruct (tokens request) as [|t1 after1] eqn:T1.
  { now rewrite (scan_s_none _ T1). }
  destruct (scan_s_some _ _ _ T1) as (r1 & -> & T2).
  rewrite store_cases. destruct (strlen t1 <? 16)%N; [|reflexivity].
  cbn [bind]. destruct after1 as [|t2 after2].
  { now rewrite (scan_s_none _ T2). }
  destruct (scan_s_some _ _ _ T2) as (r2 & -> & T3).
  rewrite store_cases. destruct (strlen t2 <? 256)%N; [|reflexivity].
  cbn [bind]. destruct after2 as [|t3 after3].
  { now rewrite (scan_s_none _ T3). }
  destruct (scan_s_some _ _ _ T3) as (r3 & -> & _).
  rewrite store_cases. now destruct (strlen t3 <? 16)%N.
Qed.

(** A request is answered exactly when it has three tokens that fit the
    arrays [method[16]], [path[256]] and [protocol[16]] with their NUL;
    every other request runs into undefined behaviour before anything is
    written. *)
Theorem handle_request_answers_iff (w : World) (request : string) :
  (exists out, handle_request w request = inr out) <->
  (exists t1 t2 t3 others,
     tokens request = t1 :: t2 :: t3 :: others /\
     (strlen t1 < 16)%N /\ (strlen t2 < 256)%N /\ (strlen t3 < 16)%N).
Proof.
  split.
  - intros [out H]. apply handle_request_inv in H as (req & Hparse & _).
    destruct (parse_request_inv _ _ Hparse) as (L1 & L2 & L3 & others & T).
    now exists (method req), (target req), (version req), others.
  - intros (t1 & t2 & t3 & others & T & L1 & L2 & L3).
    pose proof (parse_request_tokens _ _ _ _ _ T L1 L2 L3) as Hparse.
    eexists. apply (handle_request_frames w _ _ Hparse).
Qed.

(** The fields of a request that parsed are not empty and hold no white
    space, and neither does the path handed to [send_file]: a file whose
    name holds a space or a tab cannot be asked for. *)
Theorem request_fields_hold_no_space (request : string) (req : Request) :
  parse_request request = inr req ->
  (method req <> "" /\ has_space (method req) = false) /\
  (target req <> "" /\ has_space (target req) = false) /\
  (version req <> "" /\ has_space (version req) = false) /\
  exists filepath,
    build_filepath (target req) = inr filepath /\
    has_space filepath = false.
Proof.
  intros Hparse.
  destruct (parse_request_inv _ _ Hparse) as (_ & L2 & _ & others & T).
  pose proof (tokens_are_words request) as W. rewrite T in W.
  inversion W as [|? ? W1 W']; subst.
  inversion W' as [|? ? W2 W'']; subst.
  inversion W'' as [|? ? W3 _]; subst.
  repeat (split; [assumption|]).
  exists (resolved_path (target req)).
  split; [now apply build_filepath_fits|].
  unfold resolved_path. destruct (String.eqb (target req) "/"); [reflexivity|].
  simpl. apply W2.
Qed.

(** The form [%s] leaves no room for a file name with a space in it. *)
Lemma request_fields_hold_no_space_witness :
  parse_request "GET /my file.txt HTTP/1.1"
  = inr {| method := "GET"; target := "/my"; version := "file.txt" |} /\
  exists filepath,
    build_filepath "/my" = inr filepath /\ has_space filepath = false.
Proof.
  split; [reflexivity|].
  destruct (request_fields_hold_no_space "GET /my file.txt HTTP/1.1"
              {| method := "GET"; target := "/my"; version := "file.txt" |}
              eq_refl) as (_ & _ & _ & H).
  exact H.
Defined.

(** The answer depends on the method and the target alone: the version
    and everything after it are not looked at. *)
Theorem response_ignores_version
    (w : World) (request1 request2 : string) (req1 req2 : Request) :
  parse_request request1 = inr req1 ->
  parse_request request2 = inr req2 ->
  method req1 = method req2 ->
  target req1 = target req2 ->
  handle_request w request1 = handle_request w request2.
Proof.
  intros H1 H2 Hm Ht.
  rewrite (handle_request_frames w _ _ H1), (handle_request_frames w _ _ H2).
  unfold route. now rewrite Hm, Ht.
Qed.

(** An HTTP/0.9-looking line with rubbish after it and a full HTTP/1.1
    request. *)
Lemma response_ignores_version_witness :
  handle_request (regular_file "./a.js" [x31]) "GET /a.js x y z"
  = handle_request (regular_file "./a.js" [x31])
      ("GET /a.js HTTP/1.1" ++ CRLF ++ "Host: h" ++ CRLF ++ CRLF).
Proof.
  apply (response_ignores_version _ _ _
           {| method := "GET"; target := "/a.js"; version := "x" |}
           {| method := "GET"; target := "/a.js"; version := "HTTP/1.1" |});
    reflexivity.
Defined.

(** ** What the answer depends on in the world *)

(** The answer to a request looks at the world in four places only: what
    [stat] and [fopen] say of the one path built from the target, the
    allocator, and the bytes of the block it hands out. *)
Theorem response_looks_at_one_path
    (w1 w2 : World) (request : string) (req : Request) :
  parse_request request = inr req ->
  (forall filepath,
     build_filepath (target req) = inr filepath ->
     stat w1 filepath = stat w2 filepath /\
     fopen w1 filepath = fopen w2 filepath) ->
  (forall size, malloc_ok w1 size = malloc_ok w2 size) ->
  (forall i, heap_byte w1 i = heap_byte w2 i) ->
  handle_request w1 request = handle_request w2 request.
Proof.
  intros Hparse Hpath Hmem Hheap.
  rewrite (handle_request_frames w1 _ _ Hparse),
    (handle_request_frames w2 _ _ Hparse).
  destruct (parse_request_inv _ _ Hparse) as (_ & L2 & _).
  destruct (Hpath _ (build_filepath_fits _ L2)) as [Hstat Hopen].
  unfold route, respond_file, load_file. rewrite Hstat, Hopen.
  assert (Hmalloc : forall size, malloc w1 size = malloc w2 size).
  { intros size. unfold malloc. rewrite Hmem.
    destruct (malloc_ok w2 size); [|reflexivity].
    f_equal. apply map_ext. intros i. apply Hheap. }
  destruct (stat w2 _) as [st_size|]; [|reflexivity].
  now rewrite Hmalloc.
Qed.

(** Other files come and go without changing the answer. *)
Lemma response_looks_at_one_path_witness :
  handle_request (regular_file "./a.txt" [x41]) "GET /b.txt HTTP/1.1"
  = handle_request no_files "GET /b.txt HTTP/1.1".
Proof.
  apply (response_looks_at_one_path
           (one_entry "./a.txt" 1 (Some [x41]) true)
           {| stat := fun _ => None; fopen := fun _ => None;
              malloc_ok := fun _ => true; heap_byte := fun _ => xaa |}
           "GET /b.txt HTTP/1.1"
           {| method := "GET"; target := "/b.txt"; version := "HTTP/1.1" |}).
  - reflexivity.
  - intros filepath [= <-]. split; reflexivity.
  - reflexivity.
  - reflexivity.
Defined.

(** ** [send_file]: the status tells what failed *)

(** The status code on the connection tells the three outcomes apart: it
    is 404 exactly when [stat] fails, 500 exactly when [stat] succeeds and
    [fopen] or [malloc] fails, and 200 exactly when all three succeed. *)
Theorem send_file_status (w : World) (filepath : string) :
  exists header rest,
    send_file w filepath = inr (header :: rest) /\
    (status_code_field header = Some 404%N <-> stat w filepath = None) /\
    (status_code_field header = Some 500%N <->
     exists st_size,
       stat w filepath = Some st_size /\
       (fopen w filepath = None \/
        malloc w (size_t_of_off_t st_size) = None)) /\
    (status_code_field header = Some 200%N <->
     exists st_size file block,
       stat w filepath = Some st_size /\
       fopen w filepath = Some file /\
       malloc w (size_t_of_off_t st_size) = Some block).
Proof.
  rewrite send_file_frames.
  destruct (frame_shape (respond_file w filepath)) as (rest & -> & _).
  exists (header_block (respond_file w filepath)), rest.
  split; [reflexivity|].
  assert (Hserved : served (respond_file w filepath)).
  { unfold respond_file, served.
    destruct (load_file w filepath) as [bytes| |]; [|tauto|tauto].
    right; right; right. now exists filepath, bytes. }
  destruct (fields_served _ Hserved) as (_ & _ & ->).
  unfold respond_file, load_file.
  destruct (stat w filepath) as [st_size|].
  - destruct (fopen w filepath) as [file|].
    + destruct (malloc w (size_t_of_off_t st_size)) as [block|] eqn:Halloc.
      * repeat split; try discriminate.
        -- intros (sz & [= <-] & [H|H]); [discriminate | congruence].
        -- intros _. now exists st_size, file, block.
      * repeat split; try discriminate.
        -- intros _. exists st_size. now split; [|right].
        -- intros (sz & f & b & [= <-] & _ & H). congruence.
    + repeat split; try discriminate.
      * intros _. exists st_size. now split; [|left].
      * intros (sz & f & b & _ & H & _). discriminate.
  - repeat split; try discriminate.
    + intros (sz & H & _). discriminate.
    + intros (sz & f & b & H & _). discriminate.
Qed.

(** ** [send_file]: the body when [stat] and the stream disagree *)

Section ShortAndLongReads.

Lemma skipn_fresh_block (w : World) (k n : nat) :
  skipn k (map (heap_byte w) (seq 0 n)) = map (heap_byte w) (seq k (n - k)).
Proof. now rewrite skipn_map, skipn_seq. Qed.

End ShortAndLongReads.

(** When a file is found, the body is made of the bytes the stream
    delivered, at most as many as [stat] reported, followed up to that
    number by the bytes that were in the fresh block at their offsets.  A
    file that has grown since [stat] is cut at the size reported; one that
    has shrunk is padded with what the allocator left in memory. *)
Theorem send_file_body
    (w : World) (filepath : string) (st_size : Z) (file : list byte) :
  stat w filepath = Some st_size ->
  fopen w filepath = Some file ->
  malloc_ok w (size_t_of_off_t st_size) = true ->
  let n := N.to_nat (size_t_of_off_t st_size) in
  let k := Nat.min n (List.length file) in
  send_file w filepath
  = inr (frame (response_200 (get_content_type filepath)
                  (firstn n file ++ map (heap_byte w) (seq k (n - k)))%list)) /\
  (n <= List.length file ->
   send_file w filepath
   = inr (frame (response_200 (get_content_type filepath) (firstn n file)))).
Proof.
  intros Hstat Hopen Hmem n k.
  assert (Halloc : malloc w (size_t_of_off_t st_size)
                   = Some (map (heap_byte w) (seq 0 n))).
  { unfold malloc. now rewrite Hmem. }
  rewrite (send_file_found w _ _ _ _ Hstat Hopen Halloc).
  unfold fread. fold n. rewrite length_firstn, skipn_fresh_block. fold k.
  split; [reflexivity|].
  intros Hlong. replace k with n by (unfold k; lia).
  rewrite Nat.sub_diag. simpl. now rewrite app_nil_r.
Qed.

(** A file of five bytes that [stat] saw with three, and the file cut to
    two bytes that [stat] saw with five. *)
Lemma send_file_body_witness :
  send_file (one_entry "./log" 3 (Some [x31; x32; x33; x34; x35]) true) "./log"
  = inr (frame (response_200 "text/plain" [x31; x32; x33])) /\
  send_file shrunk_file "./notes.txt"
  = inr (frame (response_200 "text/plain" [x68; x69; xaa; xaa; xaa])).
Proof.
  split.
  - apply (send_file_body
             (one_entry "./log" 3 (Some [x31; x32; x33; x34; x35]) true)
             "./log" 3 [x31; x32; x33; x34; x35] eq_refl eq_refl eq_refl).
    simpl. repeat constructor.
  - apply (send_file_body shrunk_file "./notes.txt" 5 [x68; x69]
             eq_refl eq_refl eq_refl).
Defined.

(** ** [send_response] at its edges *)

Section HeaderArray.

Lemma snprintf_array_length (text : string) :
  List.length (fst (snprintf BUFFER_SIZE text))
  = S (Nat.min (N.to_nat (BUFFER_SIZE - 1)) (String.length text)).
Proof.
  unfold snprintf. cbn [fst].
  rewrite length_app, length_firstn, length_list_byte_of_string.
  simpl. lia.
Qed.

(** The header is written in a defined way exactly when it is no longer
    than the array. *)
Lemma write_header_defined (text : string) :
  (exists sent,
     write_from (fst (snprintf BUFFER_SIZE text))
       (snd (snprintf BUFFER_SIZE text)) = inr sent) <->
  (strlen text <= BUFFER_SIZE)%N.
Proof.
  unfold write_from. rewrite snprintf_array_length.
  unfold snprintf, strlen, BUFFER_SIZE. cbn [snd].
  destruct (N.leb_spec (N.of_nat (String.length text))
              (N.of_nat (S (Nat.min (N.to_nat (8192 - 1))
                              (String.length text))))) as [H|H].
  - split; [intros _; lia | intros _; eexists; reflexivity].
  - split; [intros [sent Hs]; discriminate | intros; lia].
Qed.

End HeaderArray.

(** With a NULL body only the header is written, whatever the length
    given: the [Content-Length] announced is then followed by nothing. *)
Theorem send_response_null_body
    (status_code : Z) (status_text content_type : string) (body_length : N) :
  (strlen (format_header status_code status_text content_type body_length)
   < BUFFER_SIZE)%N ->
  send_response status_code status_text content_type None body_length
  = inr [list_byte_of_string
           (format_header status_code status_text content_type body_length)].
Proof.
  intros Hfit. unfold send_response.
  pose proof (snprintf_fits _ Hfit) as Hw.
  destruct (snprintf BUFFER_SIZE _) as [header header_length].
  now rewrite Hw.
Qed.

(** A body announced and not sent. *)
Lemma send_response_null_body_witness :
  exists header,
    send_response 200 "OK" "text/plain" None 5 = inr [header] /\
    content_length_field header = Some 5%N.
Proof.
  exists (list_byte_of_string (format_header 200 "OK" "text/plain" 5)).
  split; [|reflexivity].
  apply (send_response_null_body 200 "OK" "text/plain" 5). reflexivity.
Defined.

(** [send_response] stays within defined behaviour exactly when the
    formatted header is no longer than the 8192-byte array and the length
    given does not exceed the buffer given. *)
Theorem send_response_defined_iff
    (status_code : Z) (status_text content_type : string)
    (body : option (list byte)) (body_length : N) :
  (exists out,
     send_response status_code status_text content_type body body_length
     = inr out) <->
  (strlen (format_header status_code status_text content_type body_length)
   <= BUFFER_SIZE)%N /\
  match body with
  | None => True
  | Some buf => (body_length <= N.of_nat (List.length buf))%N
  end.
Proof.
  unfold send_response.
  pose proof (write_header_defined
                (format_header status_code status_text content_type
                   body_length)) as Hheader.
  destruct (snprintf BUFFER_SIZE _) as [header header_length].
  cbn [fst snd] in Hheader.
  destruct (write_from header header_length) as [f|sent] eqn:Hw; cbn [bind].
  - split.
    + intros [out H]. discriminate.
    + intros [Hfit _]. apply Hheader in Hfit as [sent Hs]. discriminate.
  - assert (Hfit : (strlen (format_header status_code status_text
                              content_type body_length) <= BUFFER_SIZE)%N).
    { apply Hheader. now exists sent. }
    destruct body as [buf|]; [|split; [now split | eexists; reflexivity]].
    destruct (N.ltb_spec 0 body_length) as [Hpos|Hzero].
    + unfold write_from.
      destruct (N.leb_spec body_length (N.of_nat (List.length buf)))
        as [Hle|Hgt]; cbn [bind ret fail].
      * split; [now split | eexists; reflexivity].
      * split; [intros [out H]; discriminate | intros [_ H]; lia].
    + split; [intros _; split; [assumption | lia] | eexists; reflexivity].
Qed.

(** Of a buffer longer than the length given, the first [body_length]
    bytes are written, in one [write] after the header. *)
Theorem send_response_sends_prefix
    (status_code : Z) (status_text content_type : string)
    (buf : list byte) (body_length : N) :
  (strlen (format_header status_code status_text content_type body_length)
   < BUFFER_SIZE)%N ->
  (0 < body_length)%N ->
  (body_length <= N.of_nat (List.length buf))%N ->
  send_response status_code status_text content_type (Some buf) body_length
  = inr [list_byte_of_string
           (format_header status_code status_text content_type body_length);
         firstn (N.to_nat body_length) buf].
Proof.
  intros Hfit Hpos Hle.
  assert (Hlen : N.of_nat (List.length (firstn (N.to_nat body_length) buf))
                 = body_length).
  { rewrite length_firstn. lia. }
  pose proof (send_response_fits status_code status_text content_type
                (firstn (N.to_nat body_length) buf)
                (skipn (N.to_nat body_length) buf)) as H.
  cbv zeta in H. rewrite Hlen, firstn_skipn in H. rewrite (H Hfit).
  unfold frame, header_block. cbn [body statusCode reasonPhrase contentType].
  rewrite Hlen.
  destruct (firstn (N.to_nat body_length) buf) eqn:E; [|reflexivity].
  simpl in Hlen. lia.
Qed.

(** Two bytes of a five-byte buffer. *)
Lemma send_response_sends_prefix_witness :
  send_response 200 "OK" "text/plain" (Some [x61; x62; x63; x64; x65]) 2
  = inr [list_byte_of_string (format_header 200 "OK" "text/plain" 2);
         [x61; x62]].
Proof.
  apply (send_response_sends_prefix 200 "OK" "text/plain"
           [x61; x62; x63; x64; x65] 2);
    [reflexivity | reflexivity | discriminate].
Defined.

(** ** [get_content_type] by the end of the path *)

Section Suffix.

Lemma strrchr_suffix (c : ascii) (s r : string) :
  strrchr s c = Some r -> exists before, s = before ++ r.
Proof.
  revert r. induction s as [|a s IH]; intros r; simpl; [discriminate|].
  destruct (strrchr s c) as [r'|].
  - intros [= <-]. destruct (IH _ eq_refl) as [before ->].
    now exists (String a before).
  - destruct (Ascii.eqb a c); [|discriminate].
    intros [= <-]. now exists "".
Qed.

End Suffix.

(** A path that ends in an extension of the table gets the type the table
    gives it, whatever comes before, dots included; and a type other than
    text/plain is only ever returned for a path that ends in an extension
    the table gives that type. *)
Theorem get_content_type_by_suffix :
  (forall before extension type,
     In (extension, type) mime_table ->
     get_content_type (before ++ extension) = type) /\
  (forall filepath,
     get_content_type filepath <> "text/plain" ->
     exists before extension,
       filepath = before ++ extension /\
       In (extension, get_content_type filepath) mime_table).
Proof.
  split.
  - intros before extension type Hin. unfold mime_table in Hin. simpl in Hin.
    unfold get_content_type.
    repeat (destruct Hin as [[= <- <-]|Hin];
            [now rewrite strrchr_last by reflexivity|]).
    destruct Hin.
  - intros filepath. unfold get_content_type.
    destruct (strrchr filepath ".") as [dot|] eqn:Hdot;
      [|intros H; now contradiction H].
    destruct (strrchr_suffix _ _ _ Hdot) as [before ->].
    unfold strcmp_eq0.
    repeat match goal with
           | |- context [String.eqb dot ?e] =>
               destruct (String.eqb_spec dot e) as [->|_];
               [intros _; exists before; eexists; split;
                [reflexivity | simpl; tauto]|]
           end.
    intros H. now contradiction H.
Qed.

Lemma get_content_type_by_suffix_witness :
  get_content_type ("./a.b/c.min" ++ ".js") = "application/javascript" /\
  exists before extension,
    "./img/logo.svg" = before ++ extension /\
    In (extension, "image/svg+xml") mime_table.
Proof.
  destruct get_content_type_by_suffix as [Hto Hfrom]. split.
  - apply Hto. simpl. tauto.
  - apply (Hfrom "./img/logo.svg"). discriminate.
Defined.

(** ** [build_filepath]: which targets meet *)

(** Two targets give the same path only when they are the same target, or
    are [/] and [/index.html]: nothing else is folded together, neither a
    doubled slash nor a dot segment. *)
Theorem build_filepath_collisions (target1 target2 filepath : string) :
  build_filepath target1 = inr filepath ->
  build_filepath target2 = inr filepath ->
  target1 = target2 \/
  (target1 = "/" /\ target2 = "/index.html") \/
  (target1 = "/index.html" /\ target2 = "/").
Proof.
  unfold build_filepath, strcat, strcmp_eq0.
  destruct (String.eqb_spec target1 "/") as [->|N1];
    destruct (String.eqb_spec target2 "/") as [->|N2];
    intros H1 H2; apply store_inv in H1 as [-> _];
    apply store_inv in H2 as [H2 _].
  - now left.
  - injection H2 as <-. right; left. now split.
  - injection H2 as ->. right; right. now split.
  - injection H2 as ->. now left.
Qed.

Lemma build_filepath_collisions_witness :
  build_filepath "/" = inr "./index.html" /\
  build_filepath "/index.html" = inr "./index.html" /\
  ("/" = "/index.html" \/
   ("/" = "/" /\ "/index.html" = "/index.html") \/
   ("/" = "/index.html" /\ "/index.html" = "/")).
Proof.
  split; [reflexivity|]. split; [reflexivity|].
  apply (build_filepath_collisions "/" "/index.html" "./index.html");
    reflexivity.
Defined.

(** ** The accept loop *)

Section Connection.

Variable w : World.

Lemma c_string_app_nul (a b : list byte) :
  c_string (a ++ x00 :: b) = c_string a.
Proof.
  induction a as [|x a IH]; [reflexivity|].
  simpl. destruct (Byte.eqb x x00); [reflexivity | now rewrite IH].
Qed.

Lemma c_string_firstn_app_nul (n : nat) (a b : list byte) :
  c_string (firstn n (a ++ x00 :: b)) = c_string (firstn n a).
Proof.
  revert n. induction a as [|x a IH]; intros [|n]; try reflexivity.
  simpl. destruct (Byte.eqb x x00); [reflexivity | now rewrite IH].
Qed.

Lemma poke_after (got tail : list byte) (b : byte) :
  poke (got ++ tail) (List.length got) b
  = (got ++ b :: skipn (S (List.length got)) (got ++ tail))%list.
Proof.
  unfold poke. rewrite firstn_app, firstn_all, Nat.sub_diag.
  simpl. now rewrite app_nil_r.
Qed.

(** The loop body: nothing is done for a [read] that delivers no byte;
    otherwise [handle_request] gets the characters before the first NUL
    among the first [BUFFER_SIZE - 1] bytes delivered. *)
Lemma serve_connection_unfolded (received : option (list byte)) :
  serve_connection w received
  = match received with
    | Some (b :: bytes) =>
        handle_request w
          (c_string (firstn (N.to_nat (BUFFER_SIZE - 1)) (b :: bytes)))
    | _ => inr []
    end.
Proof.
  unfold serve_connection, read.
  destruct received as [[|b bytes]|]; [| |reflexivity].
  - now rewrite firstn_nil.
  - set (got := firstn (N.to_nat (BUFFER_SIZE - 1)) (b :: bytes)).
    assert (Hgot : 0 < List.length got).
    { subst got. rewrite length_firstn. simpl List.length.
      unfold BUFFER_SIZE. lia. }
    replace (0 <? Z.of_nat (List.length got))%Z with true
      by (symmetry; apply Z.ltb_lt; lia).
    now rewrite Nat2Z.id, poke_after, c_string_app_nul.
Qed.

Lemma c_string_of_text (s : string) :
  has_nul s = false -> c_string (list_byte_of_string s) = s.
Proof.
  induction s as [|c s IH]; [reflexivity|].
  simpl has_nul. intros H. apply orb_false_elim in H as [Hc Hs].
  change (list_byte_of_string (String c s))
    with (byte_of_ascii c :: list_byte_of_string s).
  simpl. destruct (Byte.eqb (byte_of_ascii c) x00) eqn:E.
  - apply byte_dec_bl in E. apply (f_equal ascii_of_byte) in E.
    rewrite ascii_of_byte_of_ascii in E. subst c. discriminate.
  - now rewrite ascii_of_byte_of_ascii, (IH Hs).
Qed.

End Connection.

(** What a client is sent depends only on the characters before the first
    NUL among the first 8191 bytes [read] delivers: the bytes after a NUL
    and the bytes past the buffer are never looked at. *)
Theorem connection_reads_one_c_string
    (w : World) (bytes1 bytes2 : list byte) :
  bytes1 <> [] -> bytes2 <> [] ->
  c_string (firstn (N.to_nat (BUFFER_SIZE - 1)) bytes1)
  = c_string (firstn (N.to_nat (BUFFER_SIZE - 1)) bytes2) ->
  serve_connection w (Some bytes1) = serve_connection w (Some bytes2).
Proof.
  intros H1 H2 Heq. rewrite !serve_connection_unfolded.
  destruct bytes1 as [|b1 bytes1]; [now contradiction H1|].
  destruct bytes2 as [|b2 bytes2]; [now contradiction H2|].
  now rewrite Heq.
Qed.

(** A request with a NUL and more text after it. *)
Lemma connection_reads_one_c_string_witness :
  serve_connection no_files
    (Some (bytes_of "GET / HTTP/1.1" ++ x00 :: bytes_of "hidden")%list)
  = serve_connection no_files (Some (bytes_of "GET / HTTP/1.1")).
Proof.
  apply connection_reads_one_c_string;
    [discriminate | discriminate | reflexivity].
Defined.

(** A request text without NUL, not empty and of at most 8191 bytes,
    reaches [handle_request] as it was sent. *)
Theorem connection_hands_request_over (w : World) (request : string) :
  request <> "" ->
  has_nul request = false ->
  (strlen request <= BUFFER_SIZE - 1)%N ->
  serve_connection w (Some (bytes_of request)) = handle_request w request.
Proof.
  intros Hne Hnul Hlen. rewrite serve_connection_unfolded. unfold bytes_of.
  destruct (list_byte_of_string request) as [|b bytes] eqn:E.
  - apply list_byte_of_string_nil in E. now contradiction Hne.
  - rewrite <- E, firstn_all2, c_string_of_text; [reflexivity | assumption |].
    rewrite length_list_byte_of_string. unfold strlen in Hlen. lia.
Qed.

Lemma connection_hands_request_over_witness :
  serve_connection (regular_file "./a.css" [x61; x7b; x7d])
    (Some (bytes_of ("GET /a.css HTTP/1.1" ++ CRLF ++ CRLF)))
  = inr (frame (response_200 "text/css" [x61; x7b; x7d])).
Proof.
  rewrite (connection_hands_request_over
             (regular_file "./a.css" [x61; x7b; x7d])
             ("GET /a.css HTTP/1.1" ++ CRLF ++ CRLF));
    [reflexivity | discriminate | reflexivity | discriminate].
Defined.

(** A client whose bytes hold no token before their first NUL (white
    space only, a bare CRLF, a NUL at the start) takes the server into
    the read of arrays that were never written. *)
Theorem connection_without_token_faults (w : World) (bytes : list byte) :
  bytes <> [] ->
  tokens (c_string (firstn (N.to_nat (BUFFER_SIZE - 1)) bytes)) = [] ->
  serve_connection w (Some bytes) = inl UninitialisedRead.
Proof.
  intros Hne Htokens. rewrite serve_connection_unfolded.
  destruct bytes as [|b bytes]; [now contradiction Hne|].
  apply handle_request_faults.
  unfold parse_request, sscanf_s_s_s. now rewrite (scan_s_none _ Htokens).
Qed.

Lemma connection_without_token_faults_witness :
  serve_connection no_files (Some (bytes_of CRLF)) = inl UninitialisedRead.
Proof.
  apply connection_without_token_faults; [discriminate | reflexivity].
Defined.

(** Every accepted client is sent nothing, when [read] delivered no byte,
    or exactly one of the responses the server has code for; a failed
    [accept] leaves no trace. *)
Theorem accept_loop_one_response_each
    (arrivals : list arrival) (connections : list writes) :
  accept_loop arrivals = inr connections ->
  Forall2
    (fun client sent =>
       if delivered_bytes (snd client)
       then exists r, served r /\ sent = frame r
       else sent = [])
    (clients arrivals) connections.
Proof.
  revert connections.
  induction arrivals as [|[|w received] later IH]; intros connections H.
  - injection H as <-. constructor.
  - now apply IH.
  - simpl in H.
    destruct (serve_connection w received) as [f|sent] eqn:Hsent;
      [discriminate|].
    destruct (accept_loop later) as [f|others]; [discriminate|].
    injection H as <-. simpl. constructor; [|now apply IH].
    rewrite serve_connection_unfolded in Hsent. cbn [snd].
    destruct received as [[|b bytes]|]; cbn [delivered_bytes].
    + now injection Hsent as <-.
    + apply handle_request_inv in Hsent as (req & _ & ->).
      exists (route w req). split; [apply route_served | reflexivity].
    + now injection Hsent as <-.
Qed.

Lemma accept_loop_one_response_each_witness :
  Forall2
    (fun client sent =>
       if delivered_bytes (snd client)
       then exists r, served r /\ sent = frame r
       else sent = [])
    [(no_files, Some (bytes_of "GET / HTTP/1.1")); (no_files, Some [])]
    [frame response_404; []].
Proof.
  apply (accept_loop_one_response_each
           [Accepted no_files (Some (bytes_of "GET / HTTP/1.1"));
            AcceptFailed; Accepted no_files (Some [])]).
  reflexivity.
Defined.

(** A failed [accept] does not end the loop and changes nothing for the
    clients before and after it. *)
Theorem accept_loop_skips_failures (before after : list arrival) :
  accept_loop (before ++ AcceptFailed :: after)
  = accept_loop (before ++ after).
Proof.
  induction before as [|[|w received] before IH]; [reflexivity | exact IH |].
  simpl. now rewrite IH.
Qed.

(** [main] leaves through [exit] only with [EXIT_FAILURE], only because
    one of the four set-up calls failed, and then with the server socket
    closed exactly when [socket] had made one; it is in its loop, with
    what the loop gave, exactly when the four calls succeeded. *)
Theorem main_set_up
    (s : Startup) (arrivals : list arrival) (e : ending) :
  main s arrivals = inr e ->
  match e with
  | Exited status _ closed =>
      status = EXIT_FAILURE /\ closed = socket_ok s /\
      socket_ok s && setsockopt_ok s && bind_ok s && listen_ok s = false
  | Serving connections =>
      socket_ok s && setsockopt_ok s && bind_ok s && listen_ok s = true /\
      accept_loop arrivals = inr connections
  end.
Proof.
  unfold main.
  destruct (socket_ok s), (setsockopt_ok s), (bind_ok s), (listen_ok s);
    cbn [negb andb]; try (intros [= <-]; repeat split).
  destruct (accept_loop arrivals) as [f|connections]; [discriminate|].
  intros [= <-]. now split.
Qed.

Lemma main_set_up_witness :
  main {| socket_ok := true; setsockopt_ok := true; bind_ok := false;
          listen_ok := true |} [Accepted no_files (Some [x47])]
  = inr (Exited EXIT_FAILURE "Failed to bind socket" true) /\
  (1 = EXIT_FAILURE /\ true = true /\ true && true && false && true = false)%Z.
Proof.
  split; [reflexivity|].
  exact (main_set_up
           {| socket_ok := true; setsockopt_ok := true; bind_ok := false;
              listen_ok := true |} [Accepted no_files (Some [x47])]
           (Exited EXIT_FAILURE "Failed to bind socket" true) eq_refl).
Defined.

(** ** The bound of [filepath] *)

(** [strcat] overruns [filepath[512]] exactly for a target other than [/]
    of 511 bytes or more; the 255 bytes [path[256]] can hold are far from
    it, so the only check between the two arrays is their sizes. *)
Theorem build_filepath_overflow_iff (path : string) :
  build_filepath path = inl BufferOverflow <->
  path <> "/" /\ (511 <= strlen path)%N.
Proof.
  unfold build_filepath, strcat, strcmp_eq0, store.
  destruct (String.eqb_spec path "/") as [->|Hne].
  - split; [discriminate | intros [H _]; now contradiction H].
  - assert (Hlen : strlen ("." ++ path) = (1 + strlen path)%N).
    { unfold strlen. simpl String.length. lia. }
    rewrite Hlen.
    destruct (N.ltb_spec (1 + strlen path) 512) as [Hlt|Hge].
    + split; [discriminate | intros [_ H]; lia].
    + split; [intros _; split; [assumption | lia] | reflexivity].
Qed.
